(** * Banking.py: the BankingData pipeline as list-of-record tables

    A shallow embedding of [src/Banking.py].  A pandas DataFrame is an
    ordered list of records, one record type per table; a nullable cell is an
    [option] ([None] is NaN / None / NaT).  The float64 columns [amount],
    [total_spent], [rank], ... are exact rationals ([Q]): rounding is not
    modelled, comparisons are exact as they are on floats.  The pandas calls
    of the source ([drop_duplicates], [dropna], [merge], [groupby(...).agg],
    [quantile], [sort_values], [rank]) are written out with the semantics of
    their default arguments.  [pd.read_csv], [pd.to_datetime] and
    [DataFrame.to_string] belong to the library and the outside world and are
    taken as parameters. *)

From Stdlib Require Import String Ascii ZArith QArith Qround Bool Lia Lqa
  PeanoNat List Permutation Sorted.
Import ListNotations.
Close Scope Q_scope.
Local Open Scope string_scope.

(** ** Column values usable as keys (hashable and ordered) *)

Class Key (K : Type) := {
  key_eqb : K -> K -> bool;
  key_leb : K -> K -> bool
}.

(** The equality test of a key type decides equality. *)
Class KeyLaws (K : Type) `{Key K} := {
  key_eqb_spec : forall a b : K, reflect (a = b) (key_eqb a b)
}.

#[export] Instance Key_string : Key string :=
  {| key_eqb := String.eqb; key_leb := String.leb |}.

#[export] Instance Key_Z : Key Z :=
  {| key_eqb := Z.eqb; key_leb := Z.leb |}.

(** A nullable key: pandas' hash tables ([duplicated], [merge]) treat two
    nulls as the same key. *)
Definition option_eqb {K} `{Key K} (a b : option K) : bool :=
  match a, b with
  | Some x, Some y => key_eqb x y
  | None, None => true
  | _, _ => false
  end.

Definition option_leb {K} `{Key K} (a b : option K) : bool :=
  match a, b with
  | None, _ => true
  | Some _, None => false
  | Some x, Some y => key_leb x y
  end.

#[export] Instance Key_option {K} `{Key K} : Key (option K) :=
  {| key_eqb := option_eqb; key_leb := option_leb |}.

(** Several key columns: tuples, compared lexicographically. *)
Definition prod_eqb {A B} `{Key A} `{Key B} (p q : A * B) : bool :=
  key_eqb (fst p) (fst q) && key_eqb (snd p) (snd q).

Definition prod_leb {A B} `{Key A} `{Key B} (p q : A * B) : bool :=
  if key_eqb (fst p) (fst q) then key_leb (snd p) (snd q)
  else key_leb (fst p) (fst q).

#[export] Instance Key_prod {A B} `{Key A} `{Key B} : Key (A * B) :=
  {| key_eqb := prod_eqb; key_leb := prod_leb |}.

Definition notnull {A} (c : option A) : bool :=
  match c with Some _ => true | None => false end.

(** ** Python results: a value or a raised exception *)

Record Exception := { exc_class : string; str : string }.

Inductive result (A : Type) : Type :=
| Ok (a : A)
| Raise (e : Exception).
Arguments Ok {A} a.
Arguments Raise {A} e.

Definition bind {A B} (m : result A) (k : A -> result B) : result B :=
  match m with
  | Ok a => k a
  | Raise e => Raise e
  end.

Notation "x <- m ;; k" := (bind m (fun x => k))
  (at level 61, m at next level, right associativity).

Fixpoint mapM {A B} (f : A -> result B) (l : list A) : result (list B) :=
  match l with
  | [] => Ok []
  | a :: t => b <- f a ;; bs <- mapM f t ;; Ok (b :: bs)
  end.

(** ** DataFrame operations *)

(** Rows of [l1] are rows of [l2], in the order of [l2]. *)
Inductive subseq {A : Type} : list A -> list A -> Prop :=
| subseq_nil : subseq [] []
| subseq_skip x l1 l2 : subseq l1 l2 -> subseq l1 (x :: l2)
| subseq_keep x l1 l2 : subseq l1 l2 -> subseq (x :: l1) (x :: l2).

Section Dedup.
Context {R K : Type} `{Key K}.
Variable subset : R -> K.

(** [df.drop_duplicates(subset=...)], keep='first': a row stays when its key
    was not seen on an earlier row. *)
Fixpoint drop_duplicates_from (seen : list K) (rows : list R) : list R :=
  match rows with
  | [] => []
  | r :: rest =>
      if existsb (key_eqb (subset r)) seen
      then drop_duplicates_from seen rest
      else r :: drop_duplicates_from (subset r :: seen) rest
  end.

Definition drop_duplicates (rows : list R) : list R :=
  drop_duplicates_from [] rows.
End Dedup.

Section Frame.
Context {R : Type}.

(** The non-null cells of a column, in row order. *)
Fixpoint column {A} (col : R -> option A) (rows : list R) : list A :=
  match rows with
  | [] => []
  | r :: rest =>
      match col r with
      | Some a => a :: column col rest
      | None => column col rest
      end
  end.

(** [df.dropna(subset=...)]: [valid r] says that the subset columns of [r]
    are all non-null. *)
Definition dropna (valid : R -> bool) (rows : list R) : list R :=
  filter valid rows.

(** [df.sort_values(...)]: [leb] is the order of the sort columns.  The sort
    is by insertion and keeps ties in table order; pandas' default kind
    (quicksort) fixes no order among ties. *)
Fixpoint insert_sorted (leb : R -> R -> bool) (x : R) (l : list R) : list R :=
  match l with
  | [] => [x]
  | y :: t => if leb x y then x :: l else y :: insert_sorted leb x t
  end.

Definition sort_values (leb : R -> R -> bool) (rows : list R) : list R :=
  fold_right (insert_sorted leb) [] rows.
End Frame.

Section GroupBy.
Context {R K : Type} `{Key K}.
(** The tuple of key columns of a row; [None] when one of them is null. *)
Variable by_ : R -> option K.

Definition has_key (k : K) (r : R) : bool :=
  match by_ r with
  | Some k' => key_eqb k k'
  | None => false
  end.

(** [df.groupby(keys)] with the defaults [sort=True], [dropna=True]: one
    group per distinct key, keys ascending; a row with a null in a key column
    is in no group. *)
Definition group_keys (rows : list R) : list K :=
  sort_values key_leb (drop_duplicates (fun k => k) (column by_ rows)).

Definition groupby (rows : list R) : list (K * list R) :=
  map (fun k => (k, filter (has_key k) rows)) (group_keys rows).

(** The rows that fall in the group of one of the keys [ks]. *)
Definition covered (ks : list K) (r : R) : bool :=
  existsb (fun k => has_key k r) ks.
End GroupBy.

(** [left.merge(right, on=key, how='left')]: every left row, in order, paired
    with each right row of equal key (in right order), or with nothing when
    no right row has its key.  Null keys match null keys. *)
Definition merge_left {L R K : Type} `{Key K}
    (left_on : L -> option K) (right_on : R -> option K)
    (left : list L) (right : list R) : list (L * option R) :=
  flat_map
    (fun x =>
       match filter (fun y => key_eqb (left_on x) (right_on y)) right with
       | [] => [(x, None)]
       | ms => map (fun y => (x, Some y)) ms
       end)
    left.

(** ** Aggregations over the rows of a group *)

Section Agg.
Context {R : Type}.

(** 'count': the number of non-null cells. *)
Definition agg_count {A} (col : R -> option A) (rows : list R) : nat :=
  length (column col rows).

Definition Qsum (xs : list Q) : Q := fold_left Qplus xs 0%Q.

(** 'sum' skips nulls; the sum of no value is 0. *)
Definition agg_sum (col : R -> option Q) (rows : list R) : Q :=
  Qsum (column col rows).

(** 'mean' skips nulls; the mean of no value is null. *)
Definition agg_mean (col : R -> option Q) (rows : list R) : option Q :=
  match column col rows with
  | [] => None
  | xs => Some (Qsum xs / inject_Z (Z.of_nat (length xs)))%Q
  end.

(** 'nunique': the number of distinct non-null cells. *)
Definition agg_nunique {A} `{Key A} (col : R -> option A) (rows : list R) : nat :=
  length (drop_duplicates (fun a => a) (column col rows)).

(** 'sum' of an int64 column, with the accumulator's wrap-around. *)
Definition wrap_int64 (z : Z) : Z :=
  ((z + 2 ^ 63) mod 2 ^ 64 - 2 ^ 63)%Z.

Definition agg_sum_int (col : R -> Z) (rows : list R) : Z :=
  fold_left (fun acc r => wrap_int64 (acc + col r)) rows 0%Z.
End Agg.

Definition Qleb_row {R} (col : R -> Q) (a b : R) : bool :=
  Qle_bool (col a) (col b).

(** [s.quantile(q)], linear interpolation: on the sorted values the virtual
    index is [q * (n - 1)]; the result lies between its two neighbours.  No
    value at all gives NaN ([None]); nothing is raised. *)
Definition quantile (q : Q) (xs : list Q) : option Q :=
  match sort_values (Qleb_row (fun x => x)) xs with
  | [] => None
  | s =>
      let n := length s in
      let h := (q * inject_Z (Z.of_nat (n - 1)))%Q in
      let lo := Z.to_nat (Qfloor h) in
      let hi := Nat.min (lo + 1) (n - 1) in
      let g := (h - inject_Z (Qfloor h))%Q in
      let a := nth lo s 0%Q in
      let b := nth hi s 0%Q in
      Some (a + g * (b - a))%Q
  end.

(** [x >= threshold] on floats: false when the threshold is NaN. *)
Definition ge_threshold (x : Q) (threshold : option Q) : bool :=
  match threshold with
  | Some t => Qle_bool t x
  | None => false
  end.

(** [s.rank(pct=True, ascending=False)], method 'average': the [g] values
    greater than [v] come first, the [e] values equal to [v] share the mean
    of the positions [g+1 .. g+e], which is [g + (e + 1) / 2]; [pct] divides
    by the number [n] of values: [(2 g + e + 1) / (2 n)]. *)
Definition count_gt (xs : list Q) (v : Q) : nat :=
  length (filter (fun x => negb (Qle_bool x v)) xs).

Definition count_eq (xs : list Q) (v : Q) : nat :=
  length (filter (fun x => Qeq_bool x v) xs).

Definition rank_pct_desc (xs : list Q) (v : Q) : Q :=
  Qmake (Z.of_nat (2 * count_gt xs v + count_eq xs v + 1))
        (Pos.of_nat (2 * length xs)).

(** ** The tables *)

(** A parsed [transaction_date] (pandas Timestamp). *)
Record Timestamp := {
  year : Z; month : Z; day : Z; hour : Z; minute : Z; second : Z
}.

(** bank_transactions.csv *)
Module Transaction.
Record t := {
  transaction_id : option Z;
  customer_id : option string;
  account_id : option string;
  transaction_date : option string;
  transaction_type : option string;
  amount : option Q;
  merchant_category : option string
}.
End Transaction.

(** bank_customers.csv *)
Module Customer.
Record t := {
  customer_id : option string;
  age : option Z;
  city : option string;
  credit_score : option Z;
  employment_status : option string
}.
End Customer.

(** bank_accounts.csv *)
Module Account.
Record t := {
  account_id : option string;
  account_type : option string
}.
End Account.

(** [transactions_clean] once lines 63-67 have replaced [transaction_date] by
    its parsed value and added the three derived columns; [row] carries the
    untouched columns. *)
Module Enriched.
Record t := {
  row : Transaction.t;
  transaction_date : option Timestamp;
  transaction_month : string;
  transaction_year : option Z;
  is_high_value : Z
}.
End Enriched.

(** [fact_transactions]: the fifteen projected columns. *)
Module Fact.
Record t := {
  transaction_id : option Z;
  customer_id : option string;
  account_id : option string;
  transaction_date : option Timestamp;
  transaction_month : option string;
  transaction_year : option Z;
  transaction_type : option string;
  amount : option Q;
  merchant_category : option string;
  is_high_value : Z;
  age : option Z;
  city : option string;
  account_type : option string;
  credit_score : option Z;
  employment_status : option string
}.
End Fact.

(** [monthly_summary] *)
Module Monthly.
Record t := {
  transaction_month : string;
  account_type : string;
  transaction_count : nat;
  total_amount : Q;
  avg_transaction_amount : option Q;
  active_customers : nat
}.
End Monthly.

(** [customer_metrics] *)
Module Metrics.
Record t := {
  customer_id : string;
  age : Z;
  city : string;
  credit_score : Z;
  employment_status : string;
  transaction_count : nat;
  total_spent : Q;
  high_value_txn_count : Z
}.
End Metrics.

(** [high_value_customers]: rows of [customer_metrics] with the added [rank]
    column. *)
Module HighValue.
Record t := {
  metrics : Metrics.t;
  rank : Q
}.
End HighValue.

(** [category_analysis] *)
Module Category.
Record t := {
  merchant_category : string;
  transaction_count : nat;
  total_amount : Q;
  avg_amount : option Q
}.
End Category.

(** ** transform_data *)

(** Lines 55-56. *)
Definition transactions_valid (r : Transaction.t) : bool :=
  notnull (Transaction.amount r) && notnull (Transaction.customer_id r).

Definition clean_transactions (transactions : list Transaction.t)
  : list Transaction.t :=
  dropna transactions_valid
    (drop_duplicates Transaction.transaction_id transactions).

(** Lines 60-61. *)
Definition customers_valid (c : Customer.t) : bool :=
  notnull (Customer.customer_id c).

Definition clean_customers (customers : list Customer.t) : list Customer.t :=
  dropna customers_valid (drop_duplicates Customer.customer_id customers).

(** Line 65: [dt.to_period('M').astype(str)], "YYYY-MM"; a missing date (NaT)
    prints as "NaT". *)
Definition digit (n : Z) : string :=
  String (ascii_of_nat (48 + Z.to_nat (n mod 10))) "".

Definition period_month (ts : Timestamp) : string :=
  digit (year ts / 1000) ++ digit (year ts / 100) ++ digit (year ts / 10)
    ++ digit (year ts) ++ "-" ++ digit (month ts / 10) ++ digit (month ts).

Definition month_str (d : option Timestamp) : string :=
  match d with
  | Some ts => period_month ts
  | None => "NaT"
  end.

(** Line 67: [(amount > 5000).astype(int)]; a comparison with NaN is False. *)
Definition high_value_flag (a : option Q) : Z :=
  match a with
  | Some x => if negb (Qle_bool x 5000) then 1 else 0
  | None => 0
  end.

(** Lines 82-87, on a row of the two merges. *)
Definition project_fact
    (j : Enriched.t * option Customer.t * option Account.t) : Fact.t :=
  let '(e, c, a) := j in
  let customer {A} (col : Customer.t -> option A) : option A :=
    match c with Some c => col c | None => None end in
  {| Fact.transaction_id := Transaction.transaction_id (Enriched.row e);
     Fact.customer_id := Transaction.customer_id (Enriched.row e);
     Fact.account_id := Transaction.account_id (Enriched.row e);
     Fact.transaction_date := Enriched.transaction_date e;
     Fact.transaction_month := Some (Enriched.transaction_month e);
     Fact.transaction_year := Enriched.transaction_year e;
     Fact.transaction_type := Transaction.transaction_type (Enriched.row e);
     Fact.amount := Transaction.amount (Enriched.row e);
     Fact.merchant_category := Transaction.merchant_category (Enriched.row e);
     Fact.is_high_value := Enriched.is_high_value e;
     Fact.age := customer Customer.age;
     Fact.city := customer Customer.city;
     Fact.account_type :=
       match a with Some a => Account.account_type a | None => None end;
     Fact.credit_score := customer Customer.credit_score;
     Fact.employment_status := customer Customer.employment_status |}.

(** Lines 70-80. *)
Definition join_fact (enriched : list Enriched.t)
    (customers_clean : list Customer.t) (accounts : list Account.t)
  : list Fact.t :=
  map project_fact
    (merge_left
       (fun j => Transaction.account_id (Enriched.row (fst j)))
       Account.account_id
       (merge_left
          (fun e => Transaction.customer_id (Enriched.row e))
          Customer.customer_id enriched customers_clean)
       accounts).

Section Transform.
(** [pd.to_datetime] on one non-null cell: the timestamp, or the parser's
    exception. *)
Variable parse_datetime : string -> result Timestamp.

(** Line 63; a null cell becomes NaT. *)
Definition to_datetime (cell : option string) : result (option Timestamp) :=
  match cell with
  | None => Ok None
  | Some s => ts <- parse_datetime s ;; Ok (Some ts)
  end.

(** Lines 63-67 on one row. *)
Definition enrich_row (r : Transaction.t) : result Enriched.t :=
  d <- to_datetime (Transaction.transaction_date r) ;;
  Ok {| Enriched.row := r;
        Enriched.transaction_date := d;
        Enriched.transaction_month := month_str d;
        Enriched.transaction_year := option_map year d;
        Enriched.is_high_value := high_value_flag (Transaction.amount r) |}.

Definition enrich (transactions_clean : list Transaction.t)
  : result (list Enriched.t) :=
  mapM enrich_row transactions_clean.

Definition transform_data (transactions : list Transaction.t)
    (customers : list Customer.t) (accounts : list Account.t)
  : result (list Fact.t * list Customer.t) :=
  let transactions_clean := clean_transactions transactions in
  let customers_clean := clean_customers customers in
  enriched <- enrich transactions_clean ;;
  Ok (join_fact enriched customers_clean accounts, customers_clean).
End Transform.

(** ** generate_insights *)

(** Lines 104-113. *)
Definition monthly_key (r : Fact.t) : option (string * string) :=
  match Fact.transaction_month r, Fact.account_type r with
  | Some m, Some a => Some (m, a)
  | _, _ => None
  end.

Definition monthly_row (g : string * string * list Fact.t) : Monthly.t :=
  let '(m, a, rows) := g in
  {| Monthly.transaction_month := m;
     Monthly.account_type := a;
     Monthly.transaction_count := agg_count Fact.transaction_id rows;
     Monthly.total_amount := agg_sum Fact.amount rows;
     Monthly.avg_transaction_amount := agg_mean Fact.amount rows;
     Monthly.active_customers := agg_nunique Fact.customer_id rows |}.

Definition monthly_leb (a b : Monthly.t) : bool :=
  key_leb (Monthly.transaction_month a, Monthly.account_type a)
          (Monthly.transaction_month b, Monthly.account_type b).

Definition monthly_summary (fact_transactions : list Fact.t) : list Monthly.t :=
  sort_values monthly_leb
    (map monthly_row (groupby monthly_key fact_transactions)).

(** Lines 116-122. *)
Definition customer_key (r : Fact.t)
  : option (string * Z * string * Z * string) :=
  match Fact.customer_id r, Fact.age r, Fact.city r,
        Fact.credit_score r, Fact.employment_status r with
  | Some c, Some a, Some ci, Some cs, Some es => Some (c, a, ci, cs, es)
  | _, _, _, _, _ => None
  end.

Definition metrics_row (g : string * Z * string * Z * string * list Fact.t)
  : Metrics.t :=
  let '(c, a, ci, cs, es, rows) := g in
  {| Metrics.customer_id := c;
     Metrics.age := a;
     Metrics.city := ci;
     Metrics.credit_score := cs;
     Metrics.employment_status := es;
     Metrics.transaction_count := agg_count Fact.transaction_id rows;
     Metrics.total_spent := agg_sum Fact.amount rows;
     Metrics.high_value_txn_count := agg_sum_int Fact.is_high_value rows |}.

Definition customer_metrics (fact_transactions : list Fact.t) : list Metrics.t :=
  map metrics_row (groupby customer_key fact_transactions).

(** Line 124. *)
Definition top_10_threshold (metrics : list Metrics.t) : option Q :=
  quantile (9 # 10) (map Metrics.total_spent metrics).

(** Lines 126-128: the rows at or above the threshold, highest spend first. *)
Definition spent_desc (a b : Metrics.t) : bool :=
  Qle_bool (Metrics.total_spent b) (Metrics.total_spent a).

Definition retained (metrics : list Metrics.t) : list Metrics.t :=
  sort_values spent_desc
    (filter (fun m => ge_threshold (Metrics.total_spent m)
                        (top_10_threshold metrics))
       metrics).

(** Line 130: the rank is taken over the [total_spent] column of the frame
    it is assigned to, the retained rows. *)
Definition add_rank (hv : list Metrics.t) : list HighValue.t :=
  map (fun m =>
         {| HighValue.metrics := m;
            HighValue.rank :=
              rank_pct_desc (map Metrics.total_spent hv)
                (Metrics.total_spent m) |})
    hv.

Definition high_value_customers (fact_transactions : list Fact.t)
  : list HighValue.t :=
  add_rank (retained (customer_metrics fact_transactions)).

(** Lines 133-139. *)
Definition category_row (g : string * list Fact.t) : Category.t :=
  let '(c, rows) := g in
  {| Category.merchant_category := c;
     Category.transaction_count := agg_count Fact.transaction_id rows;
     Category.total_amount := agg_sum Fact.amount rows;
     Category.avg_amount := agg_mean Fact.amount rows |}.

Definition amount_desc (a b : Category.t) : bool :=
  Qle_bool (Category.total_amount b) (Category.total_amount a).

Definition category_analysis (fact_transactions : list Fact.t)
  : list Category.t :=
  sort_values amount_desc
    (map category_row (groupby Fact.merchant_category fact_transactions)).

Definition Insights : Type :=
  list Monthly.t * list HighValue.t * list Category.t.

(** No statement of the method raises: the quantile of no value is NaN and
    the comparison with it is False. *)
Definition generate_insights (fact_transactions : list Fact.t)
  : result Insights :=
  Ok (monthly_summary fact_transactions,
      high_value_customers fact_transactions,
      category_analysis fact_transactions).

(** ** extract_data, display_insights and run *)

Record BankingData := { data_path : string }.

Definition default_data_path : string :=
  "https://raw.githubusercontent.com/NNielsen1995/Temp/refs/heads/main".

(** A computation that prints: the lines written to stdout, then its
    result. *)
Definition IO (A : Type) : Type := list string * result A.

Definition io_ret {A} (a : A) : IO A := ([], Ok a).

Definition io_bind {A B} (m : IO A) (k : A -> IO B) : IO B :=
  match m with
  | (out, Ok a) => let (out', r) := k a in ((out ++ out')%list, r)
  | (out, Raise e) => (out, Raise e)
  end.

Definition print (line : string) : IO unit := ([line], Ok tt).

Definition lift {A} (r : result A) : IO A := ([], r).

(** [raise] *)
Definition io_raise {A} (e : Exception) : IO A := ([], Raise e).

(** [try: body except Exception as e: handler(e)] *)
Definition try_except {A} (body : IO A) (handler : Exception -> IO A) : IO A :=
  match body with
  | (out, Ok a) => (out, Ok a)
  | (out, Raise e) => let (out', r) := handler e in ((out ++ out')%list, r)
  end.

Notation "x <~ m ;; k" := (io_bind m (fun x => k))
  (at level 61, m at next level, right associativity).

Section Run.
(** [pd.read_csv] of each of the three files, typed by its table. *)
Variable read_transactions : string -> result (list Transaction.t).
Variable read_customers : string -> result (list Customer.t).
Variable read_accounts : string -> result (list Account.t).
Variable parse_datetime : string -> result Timestamp.
(** [df.to_string(index=False)] *)
Variable monthly_to_string : list Monthly.t -> string.
Variable high_value_to_string : list HighValue.t -> string.
Variable category_to_string : list Category.t -> string.

Definition extract_data (self : BankingData)
  : result (list Transaction.t * list Customer.t * list Account.t) :=
  transactions <- read_transactions (data_path self ++ "/bank_transactions.csv") ;;
  customers <- read_customers (data_path self ++ "/bank_customers.csv") ;;
  accounts <- read_accounts (data_path self ++ "/bank_accounts.csv") ;;
  Ok (transactions, customers, accounts).

Definition display_insights (monthly_summary : list Monthly.t)
    (high_value_customers : list HighValue.t)
    (category_analysis : list Category.t) : IO unit :=
  _ <~ print "Monhly transactions" ;;
  _ <~ print (monthly_to_string (firstn 10 monthly_summary)) ;;
  _ <~ print "Top 10 customers" ;;
  _ <~ print (high_value_to_string (firstn 10 high_value_customers)) ;;
  _ <~ print "Merchant categories" ;;
  print (category_to_string (firstn 10 category_analysis)).

Definition pipeline (self : BankingData) : IO Insights :=
  tables <~ lift (extract_data self) ;;
  let '(transactions, customers, accounts) := tables in
  transformed <~ lift (transform_data parse_datetime
                         transactions customers accounts) ;;
  let '(fact_transactions, customers_clean) := transformed in
  insights <~ lift (generate_insights fact_transactions) ;;
  let '(monthly_summary, high_value_customers, category_analysis) := insights in
  _ <~ display_insights monthly_summary high_value_customers
         category_analysis ;;
  io_ret (monthly_summary, high_value_customers, category_analysis).

Definition run (self : BankingData) : IO Insights :=
  try_except (pipeline self)
    (fun e =>
       _ <~ print ("Pipeline failed: " ++ str e) ;;
       io_raise e).
End Run.

(** ** Rows that the aggregations count *)

(** The rows that a [transaction_count] of the Monthly Summary counts. *)
Definition monthly_counted (r : Fact.t) : bool :=
  notnull (Fact.transaction_month r) && notnull (Fact.account_type r)
  && notnull (Fact.transaction_id r).

(** The rows that a [transaction_count] of the Category Analysis counts. *)
Definition category_counted (r : Fact.t) : bool :=
  notnull (Fact.merchant_category r) && notnull (Fact.transaction_id r).

(** A fact row whose [customer_id] is that of a cleaned customer. *)
Definition matched (customers_clean : list Customer.t) (r : Fact.t) : bool :=
  existsb (fun c => key_eqb (Fact.customer_id r) (Customer.customer_id c))
    customers_clean.

(** ** The rank as the specification words it *)

(** The percentile rank of a [total_spent] value among all customer groups,
    not only the retained ones. *)
Definition rank_among_all_groups (fact_transactions : list Fact.t) (v : Q) : Q :=
  rank_pct_desc
    (map Metrics.total_spent (customer_metrics fact_transactions)) v.

(** ** Sample tables *)

(** A date parser for the samples: "YYYY-MM-DD" and nothing else. *)
Definition parse_iso_date (s : string) : result Timestamp :=
  let d (c : ascii) : Z := (Z.of_nat (nat_of_ascii c) - 48)%Z in
  match s with
  | String y1 (String y2 (String y3 (String y4 (String "-"
      (String m1 (String m2 (String "-" (String d1 (String d2 ""))))))))) =>
      Ok {| year := d y1 * 1000 + d y2 * 100 + d y3 * 10 + d y4;
            month := d m1 * 10 + d m2;
            day := d d1 * 10 + d d2;
            hour := 0; minute := 0; second := 0 |}
  | _ => Raise {| exc_class := "ValueError";
                  str := "Unknown datetime string format" |}
  end.

Definition txn (id : Z) (customer account date : string) (amount : Q)
    (category : string) : Transaction.t :=
  {| Transaction.transaction_id := Some id;
     Transaction.customer_id := Some customer;
     Transaction.account_id := Some account;
     Transaction.transaction_date := Some date;
     Transaction.transaction_type := Some "debit";
     Transaction.amount := Some amount;
     Transaction.merchant_category := Some category |}.

Definition cust (id : string) (age : Z) (city : string) (credit : Z)
    (employment : string) : Customer.t :=
  {| Customer.customer_id := Some id;
     Customer.age := Some age;
     Customer.city := Some city;
     Customer.credit_score := Some credit;
     Customer.employment_status := Some employment |}.

(** The scenario of the specification (a duplicated transaction 1), and a
    transaction 3 of a customer and on an account that the other tables do
    not have. *)
Definition ex_transactions : list Transaction.t :=
  [ txn 1 "C1" "A1" "2024-01-15" 6000 "Travel";
    txn 1 "C1" "A1" "2024-01-15" 6000 "Travel";
    txn 2 "C2" "A1" "2024-02-20" 100 "Grocery";
    txn 3 "C9" "A9" "2024-02-21" 5000 "Travel" ].

Definition ex_customers : list Customer.t :=
  [ cust "C1" 30 "NY" 700 "Employed"; cust "C2" 40 "LA" 650 "Employed" ].

Definition ex_accounts : list Account.t :=
  [ {| Account.account_id := Some "A1";
       Account.account_type := Some "Checking" |} ].

Definition ex_enriched : list Enriched.t :=
  Eval vm_compute in
    match enrich parse_iso_date (clean_transactions ex_transactions) with
    | Ok enriched => enriched
    | Raise _ => []
    end.

Definition ex_fact : list Fact.t :=
  Eval vm_compute in join_fact ex_enriched ex_customers ex_accounts.

(** A fact row written out: the customer columns are those of the joined
    customer, all null when the join found none. *)
Definition fact_row (id : option Z) (customer : string) (amount : option Q)
    (category account_type : option string)
    (joined : option (Z * string * Z * string)) : Fact.t :=
  {| Fact.transaction_id := id;
     Fact.customer_id := Some customer;
     Fact.account_id := Some "A1";
     Fact.transaction_date := None;
     Fact.transaction_month := Some "2024-01";
     Fact.transaction_year := Some 2024%Z;
     Fact.transaction_type := Some "debit";
     Fact.amount := amount;
     Fact.merchant_category := category;
     Fact.is_high_value := high_value_flag amount;
     Fact.age := option_map (fun j => fst (fst (fst j))) joined;
     Fact.city := option_map (fun j => snd (fst (fst j))) joined;
     Fact.account_type := account_type;
     Fact.credit_score := option_map (fun j => snd (fst j)) joined;
     Fact.employment_status := option_map snd joined |}.

Definition known : option (Z * string * Z * string) :=
  Some (30%Z, "NY", 700%Z, "Employed").

(** One transaction on an account that the accounts table does not have. *)
Definition null_account_fact : list Fact.t :=
  [ fact_row (Some 1%Z) "C1" (Some 100%Q) (Some "Travel") None known ].

(** One transaction without a merchant category. *)
Definition null_category_fact : list Fact.t :=
  [ fact_row (Some 1%Z) "C1" (Some 100%Q) None (Some "Checking") known ].

(** One transaction without a transaction id. *)
Definition null_id_fact : list Fact.t :=
  [ fact_row None "C1" (Some 100%Q) (Some "Travel") (Some "Checking") known ].

(** One transaction of a known customer, its amount null. *)
Definition null_amount_fact : list Fact.t :=
  [ fact_row (Some 1%Z) "C1" None (Some "Travel") (Some "Checking") known ].

(** One transaction of a customer that the customers table does not have. *)
Definition unknown_customer_fact : list Fact.t :=
  [ fact_row (Some 1%Z) "C9" (Some 100%Q) (Some "Travel") (Some "Checking")
      None ].

(** Eleven customers, one transaction each, spending 100, 200, ..., 1100. *)
Definition eleven_fact : list Fact.t :=
  map (fun p => fact_row (Some (fst (fst p))) (snd (fst p)) (Some (snd p))
                  (Some "Travel") (Some "Checking") known)
    [ (1%Z, "C01", 100%Q); (2%Z, "C02", 200%Q); (3%Z, "C03", 300%Q);
      (4%Z, "C04", 400%Q); (5%Z, "C05", 500%Q); (6%Z, "C06", 600%Q);
      (7%Z, "C07", 700%Q); (8%Z, "C08", 800%Q); (9%Z, "C09", 900%Q);
      (10%Z, "C10", 1000%Q); (11%Z, "C11", 1100%Q) ].

(** ** Notions used in the further properties *)


(** The transaction columns of a transaction and of a fact row. *)
Definition transaction_columns (t : Transaction.t)
  : option Z * option string * option string * option string * option Q
    * option string :=
  (Transaction.transaction_id t, Transaction.customer_id t,
   Transaction.account_id t, Transaction.transaction_type t,
   Transaction.amount t, Transaction.merchant_category t).

Definition fact_transaction_columns (r : Fact.t)
  : option Z * option string * option string * option string * option Q
    * option string :=
  (Fact.transaction_id r, Fact.customer_id r, Fact.account_id r,
   Fact.transaction_type r, Fact.amount r, Fact.merchant_category r).

(** A fact row with an [amount] above 5000. *)
Definition above_5000 (r : Fact.t) : bool :=
  match Fact.amount r with
  | Some x => negb (Qle_bool x 5000)
  | None => false
  end.

(** The key columns of a summary row. *)
Definition monthly_row_key (m : Monthly.t) : string * string :=
  (Monthly.transaction_month m, Monthly.account_type m).

Definition metrics_key (m : Metrics.t) : string * Z * string * Z * string :=
  (Metrics.customer_id m, Metrics.age m, Metrics.city m,
   Metrics.credit_score m, Metrics.employment_status m).

(** The rows that a [transaction_count] of the customer metrics counts. *)
Definition customer_counted (r : Fact.t) : bool :=
  notnull (customer_key r) && notnull (Fact.transaction_id r).

(** Rows of the sample tables. *)
Definition ex_fact_first : Fact.t :=
  nth 0 ex_fact (fact_row None "" None None None None).

Definition ex_metrics_first : Metrics.t :=
  nth 0 (customer_metrics ex_fact)
    {| Metrics.customer_id := ""; Metrics.age := 0; Metrics.city := "";
       Metrics.credit_score := 0; Metrics.employment_status := "";
       Metrics.transaction_count := 0; Metrics.total_spent := 0;
       Metrics.high_value_txn_count := 0 |}.

Definition ex_monthly_first : Monthly.t :=
  nth 0 (monthly_summary ex_fact)
    {| Monthly.transaction_month := ""; Monthly.account_type := "";
       Monthly.transaction_count := 0; Monthly.total_amount := 0;
       Monthly.avg_transaction_amount := None;
       Monthly.active_customers := 0 |}.

(** * Properties *)

(** ** Keys and duplicates *)

#[export] Instance KeyLaws_string : KeyLaws string.
Proof. constructor. exact String.eqb_spec. Qed.

#[export] Instance KeyLaws_Z : KeyLaws Z.
Proof. constructor. exact Z.eqb_spec. Qed.

#[export] Instance KeyLaws_option {K} `{KeyLaws K} : KeyLaws (option K).
Proof.
  constructor. intros [x|] [y|]; simpl; try (constructor; congruence).
  destruct (key_eqb_spec x y); constructor; congruence.
Qed.

#[export] Instance KeyLaws_prod {A B} `{KeyLaws A} `{KeyLaws B} :
  KeyLaws (A * B).
Proof.
  constructor. intros [a b] [c d]. unfold key_eqb; simpl. unfold prod_eqb; simpl.
  destruct (key_eqb_spec a c), (key_eqb_spec b d); simpl;
    constructor; congruence.
Qed.

Lemma key_eqb_refl {K} `{KeyLaws K} (k : K) : key_eqb k k = true.
Proof. destruct (key_eqb_spec k k); congruence. Qed.

Lemma key_eqb_eq {K} `{KeyLaws K} (a b : K) : key_eqb a b = true <-> a = b.
Proof. destruct (key_eqb_spec a b); split; congruence. Qed.

Lemma key_eqb_neq {K} `{KeyLaws K} (a b : K) : key_eqb a b = false <-> a <> b.
Proof. destruct (key_eqb_spec a b); split; congruence. Qed.

Lemma seen_In {K} `{KeyLaws K} (k : K) (seen : list K) :
  existsb (key_eqb k) seen = true <-> In k seen.
Proof.
  rewrite existsb_exists. split.
  - intros (x & Hx & E). apply key_eqb_eq in E. now subst.
  - intros Hk. exists k. split; [assumption | apply key_eqb_refl].
Qed.

Lemma seen_not_In {K} `{KeyLaws K} (k : K) (seen : list K) :
  existsb (key_eqb k) seen = false <-> ~ In k seen.
Proof.
  rewrite <- seen_In. destruct (existsb (key_eqb k) seen); split; congruence.
Qed.

Create HintDb frame.
#[local] Hint Constructors subseq NoDup : frame.

Lemma subseq_refl {A} (l : list A) : subseq l l.
Proof. induction l; auto with frame. Qed.

Lemma subseq_trans {A} (l1 l2 l3 : list A) :
  subseq l1 l2 -> subseq l2 l3 -> subseq l1 l3.
Proof.
  intros H12 H23. revert l1 H12.
  induction H23; intros l0 H12; auto with frame.
  inversion H12; subst; auto with frame.
Qed.

Lemma subseq_In {A} (l1 l2 : list A) :
  subseq l1 l2 -> forall x, In x l1 -> In x l2.
Proof.
  induction 1; simpl; intros y Hy; auto.
  destruct Hy; auto.
Qed.

Lemma subseq_filter {A} (p : A -> bool) (l : list A) : subseq (filter p l) l.
Proof.
  induction l as [|x l IH]; simpl; [constructor|].
  destruct (p x); auto with frame.
Qed.

(** Filtering rows keeps their keys distinct. *)
Lemma filter_keeps_distinct {R K} (key : R -> K) (valid : R -> bool)
    (rows : list R) (Hnd : NoDup (map key rows)) :
  NoDup (map key (filter valid rows)).
Proof.
  revert Hnd. induction rows as [|r rows IH]; simpl; intros Hnd; [exact Hnd|].
  apply NoDup_cons_iff in Hnd. destruct Hnd as [Hfresh Hrest].
  destruct (valid r); simpl; [|now apply IH].
  apply NoDup_cons; [|now apply IH].
  rewrite in_map_iff. intros (r' & Ekey & Hr').
  apply filter_In in Hr'. apply Hfresh.
  rewrite <- Ekey. apply in_map. tauto.
Qed.

Section DedupFacts.
Context {R K : Type} `{KeyLaws K}.
Variable subset : R -> K.

Lemma drop_duplicates_from_subseq (rows : list R) : forall seen,
  subseq (drop_duplicates_from subset seen rows) rows.
Proof.
  induction rows as [|r rest IH]; simpl; intros seen; [constructor|].
  destruct (existsb (key_eqb (subset r)) seen); auto with frame.
Qed.

Lemma drop_duplicates_from_fresh (rows : list R) : forall seen r,
  In r (drop_duplicates_from subset seen rows) -> ~ In (subset r) seen.
Proof.
  induction rows as [|x rest IH]; simpl; intros seen r Hr; [tauto|].
  destruct (existsb (key_eqb (subset x)) seen) eqn:E.
  - eauto.
  - destruct Hr as [-> | Hr].
    + now apply seen_not_In.
    + apply IH in Hr. simpl in Hr. tauto.
Qed.

Lemma drop_duplicates_from_NoDup (rows : list R) : forall seen,
  NoDup (map subset (drop_duplicates_from subset seen rows)).
Proof.
  induction rows as [|x rest IH]; simpl; intros seen; [constructor|].
  destruct (existsb (key_eqb (subset x)) seen); [apply IH|].
  simpl. constructor; [|apply IH].
  intros Hin. apply in_map_iff in Hin. destruct Hin as (y & E & Hy).
  apply drop_duplicates_from_fresh in Hy. apply Hy. left. congruence.
Qed.

(** A kept row is the first row of the table that carries its key. *)
Lemma drop_duplicates_from_first (rows : list R) : forall seen r,
  In r (drop_duplicates_from subset seen rows) ->
  find (fun x => key_eqb (subset x) (subset r)) rows = Some r.
Proof.
  induction rows as [|x rest IH]; simpl; intros seen r Hr; [tauto|].
  destruct (existsb (key_eqb (subset x)) seen) eqn:E.
  - assert (Hne : subset x <> subset r).
    { intros Heq. apply drop_duplicates_from_fresh in Hr.
      apply seen_In in E. congruence. }
    apply key_eqb_neq in Hne. rewrite Hne. eauto.
  - destruct Hr as [-> | Hr].
    + now rewrite key_eqb_refl.
    + assert (Hne : subset x <> subset r).
      { intros Heq. apply drop_duplicates_from_fresh in Hr.
        apply Hr. now left. }
      apply key_eqb_neq in Hne. rewrite Hne. eauto.
Qed.

(** The first row that carries a key not seen before is kept. *)
Lemma drop_duplicates_from_keeps_first (rows : list R) : forall seen r,
  find (fun x => key_eqb (subset x) (subset r)) rows = Some r ->
  ~ In (subset r) seen ->
  In r (drop_duplicates_from subset seen rows).
Proof.
  induction rows as [|x rest IH]; simpl; intros seen r Hfind Hseen;
    [discriminate|].
  destruct (key_eqb (subset x) (subset r)) eqn:E.
  - injection Hfind as ->. apply seen_not_In in Hseen.
    rewrite Hseen. now left.
  - apply key_eqb_neq in E.
    destruct (existsb (key_eqb (subset x)) seen); [now apply IH|].
    right. apply IH; [assumption|].
    intros [Heq | Hin]; [congruence | contradiction].
Qed.

(** A table without duplicate keys, none of them seen, is left as it is. *)
Lemma drop_duplicates_from_id (rows : list R) : forall seen,
  NoDup (map subset rows) ->
  (forall r, In r rows -> ~ In (subset r) seen) ->
  drop_duplicates_from subset seen rows = rows.
Proof.
  induction rows as [|x rest IH]; simpl; intros seen Hnd Hseen; [reflexivity|].
  inversion Hnd as [|? ? Hx Hrest]; subst.
  assert (E : existsb (key_eqb (subset x)) seen = false).
  { apply seen_not_In. auto. }
  rewrite E. f_equal. apply IH; [assumption|].
  intros r Hr [Heq | Hin].
  - apply Hx. rewrite Heq. now apply in_map.
  - exact (Hseen r (or_intror Hr) Hin).
Qed.

Lemma drop_duplicates_NoDup (rows : list R) :
  NoDup (map subset (drop_duplicates subset rows)).
Proof. apply drop_duplicates_from_NoDup. Qed.

(** Dropping duplicates and then null rows is idempotent. *)
Lemma clean_idempotent (valid : R -> bool) (rows : list R) :
  dropna valid (drop_duplicates subset
    (dropna valid (drop_duplicates subset rows)))
  = dropna valid (drop_duplicates subset rows).
Proof.
  unfold dropna, drop_duplicates.
  pose proof (drop_duplicates_from_NoDup rows []) as Hnd.
  set (d := drop_duplicates_from subset [] rows) in *.
  rewrite drop_duplicates_from_id.
  - clearbody d. clear Hnd.
    induction d as [|x l IH]; simpl; [reflexivity|].
    destruct (valid x) eqn:E; simpl; [rewrite E; f_equal|]; exact IH.
  - now apply filter_keeps_distinct.
  - intros r _ [].
Qed.
End DedupFacts.

(** ** The cleaning step *)

(** [C6] For every input transactions table, the cleaned transactions (lines
    54-56) contain no two rows with equal [transaction_id]; every output row
    is a row of the input; the output rows are exactly the first input rows
    of their [transaction_id] that have an [amount] and a [customer_id]; and
    they stand in input order. *)
Theorem clean_transactions_dedup (transactions : list Transaction.t) :
  let cleaned := clean_transactions transactions in
  NoDup (map Transaction.transaction_id cleaned)
  /\ (forall r, In r cleaned -> In r transactions)
  /\ (forall r, In r cleaned <->
        find (fun x => key_eqb (Transaction.transaction_id x)
                         (Transaction.transaction_id r)) transactions
        = Some r
        /\ transactions_valid r = true)
  /\ subseq cleaned transactions.
Proof.
  unfold clean_transactions, dropna, drop_duplicates.
  assert (Hsub : subseq
            (filter transactions_valid
               (drop_duplicates_from Transaction.transaction_id []
                  transactions))
            transactions).
  { eapply subseq_trans; [apply subseq_filter|].
    apply drop_duplicates_from_subseq. }
  split; [|split; [|split]].
  - apply filter_keeps_distinct, drop_duplicates_from_NoDup.
  - intros r Hr. exact (subseq_In _ _ Hsub r Hr).
  - intros r. rewrite filter_In. split.
    + intros [Hr Hvalid]. split; [|exact Hvalid].
      eapply drop_duplicates_from_first; eassumption.
    + intros [Hfind Hvalid]. split; [|exact Hvalid].
      apply drop_duplicates_from_keeps_first; [assumption | intros []].
  - exact Hsub.
Qed.

(** [C7] Cleaning is idempotent on both tables: deduplication followed by
    null-filtering, applied to its own output, changes nothing. *)
Theorem cleaning_idempotent (transactions : list Transaction.t)
    (customers : list Customer.t) :
  clean_transactions (clean_transactions transactions)
    = clean_transactions transactions
  /\ clean_customers (clean_customers customers) = clean_customers customers.
Proof.
  split; apply clean_idempotent.
Qed.

(** ** Left joins *)

Section MergeFacts.
Context {L R K : Type} `{KeyLaws K}.
Variable left_on : L -> option K.
Variable right_on : R -> option K.

Lemma merge_left_In (left : list L) (right : list R) x o :
  In (x, o) (merge_left left_on right_on left right) -> In x left.
Proof.
  unfold merge_left. rewrite in_flat_map. intros (x' & Hx' & Hin).
  destruct (filter _ right) as [|y ms]; simpl in Hin.
  - destruct Hin as [E | []]. congruence.
  - destruct Hin as [E | Hin]; [congruence|].
    apply in_map_iff in Hin. destruct Hin as (? & E & _). congruence.
Qed.

(** A row joined to a right row found that row under its own key. *)
Lemma merge_left_In_Some (left : list L) (right : list R) x y :
  In (x, Some y) (merge_left left_on right_on left right) ->
  In y right /\ key_eqb (left_on x) (right_on y) = true.
Proof.
  unfold merge_left. rewrite in_flat_map. intros (x' & Hx' & Hin).
  destruct (filter _ right) as [|y' ms] eqn:E; simpl in Hin.
  - destruct Hin as [E' | []]. discriminate.
  - assert (Hy : In y (y' :: ms)).
    { destruct Hin as [E' | Hin]; [left; congruence|right].
      apply in_map_iff in Hin. destruct Hin as (? & E' & ?). congruence. }
    assert (x' = x).
    { destruct Hin as [E' | Hin]; [congruence|].
      apply in_map_iff in Hin. destruct Hin as (? & E' & ?). congruence. }
    subst x'. rewrite <- E in Hy. now apply filter_In in Hy.
Qed.

(** At most one right row carries a given key when the keys are distinct. *)
Lemma unique_key_matches (right : list R) (k : option K) :
  NoDup (map right_on right) ->
  (length (filter (fun y => key_eqb k (right_on y)) right) <= 1)%nat.
Proof.
  induction right as [|y right IH]; cbn [filter map length]; intros Hnd;
    [lia|].
  inversion Hnd as [|? ? Hy Hright]; subst.
  destruct (key_eqb k (right_on y)) eqn:E; [|auto].
  apply key_eqb_eq in E. subst k. cbn [length].
  assert (Hnone : filter (fun y' => key_eqb (right_on y) (right_on y')) right
                  = []).
  { clear IH Hnd Hright. induction right as [|z right IH]; [reflexivity|].
    cbn [filter map In] in *.
    destruct (key_eqb (right_on y) (right_on z)) eqn:E.
    - apply key_eqb_eq in E. exfalso. apply Hy. left. congruence.
    - apply IH. intros Hin. apply Hy. now right. }
  rewrite Hnone. cbn [length]. lia.
Qed.

(** With distinct right keys a left join keeps every left row exactly once,
    in order. *)
Lemma merge_left_unique (left : list L) (right : list R) :
  NoDup (map right_on right) ->
  map fst (merge_left left_on right_on left right) = left.
Proof.
  intros Hnd. unfold merge_left.
  induction left as [|x left IH]; cbn [flat_map]; [reflexivity|].
  rewrite map_app, IH. clear IH.
  pose proof (unique_key_matches right (left_on x) Hnd) as Hle.
  destruct (filter (fun y => key_eqb (left_on x) (right_on y)) right)
    as [|y [|z ms]]; cbn [length map app fst] in *;
    [reflexivity | reflexivity | lia].
Qed.
End MergeFacts.

(** ** Enrichment and the fact table *)

Lemma mapM_In {A B} (f : A -> result B) (l : list A) : forall l',
  mapM f l = Ok l' -> forall y, In y l' -> exists x, In x l /\ f x = Ok y.
Proof.
  induction l as [|a l IH]; simpl; intros l' E y Hy.
  - injection E as <-. destruct Hy.
  - destruct (f a) as [b|e] eqn:Ea; simpl in E; [|discriminate].
    destruct (mapM f l) as [bs|e] eqn:El; simpl in E; [|discriminate].
    injection E as <-. destruct Hy as [<- | Hy]; [eauto|].
    destruct (IH bs eq_refl y Hy) as (x & Hx & Ex). eauto.
Qed.

Lemma mapM_length {A B} (f : A -> result B) (l : list A) : forall l',
  mapM f l = Ok l' -> length l' = length l.
Proof.
  induction l as [|a l IH]; simpl; intros l' E.
  - now injection E as <-.
  - destruct (f a) as [b|e]; simpl in E; [|discriminate].
    destruct (mapM f l) as [bs|e]; simpl in E; [|discriminate].
    injection E as <-. simpl. f_equal. now apply IH.
Qed.

Lemma enrich_row_inv parse r e :
  enrich_row parse r = Ok e ->
  Enriched.row e = r
  /\ Enriched.is_high_value e = high_value_flag (Transaction.amount r).
Proof.
  unfold enrich_row. destruct (to_datetime parse _); simpl; [|discriminate].
  intros E. injection E as <-. now split.
Qed.

Lemma high_value_flag_spec (a : Q) :
  (high_value_flag (Some a) = 1%Z <-> (5000 < a)%Q)
  /\ (high_value_flag (Some a) = 0%Z <-> (a <= 5000)%Q).
Proof.
  simpl. destruct (Qle_bool a 5000) eqn:E; simpl.
  - apply Qle_bool_iff in E. repeat split; intros; try easy.
    exfalso. eapply Qlt_not_le; eassumption.
  - assert (Hlt : (5000 < a)%Q).
    { apply Qnot_le_lt. intros Hle. apply Qle_bool_iff in Hle. congruence. }
    repeat split; intros; try easy.
    exfalso. eapply Qlt_not_le; eassumption.
Qed.

(** Every fact row is the projection of an enriched, cleaned transaction. *)
Lemma fact_row_origin parse transactions customers accounts fact cc r :
  transform_data parse transactions customers accounts = Ok (fact, cc) ->
  In r fact ->
  exists t c a,
    In t (clean_transactions transactions)
    /\ Fact.amount r = Transaction.amount t
    /\ Fact.customer_id r = Transaction.customer_id t
    /\ Fact.is_high_value r = high_value_flag (Transaction.amount t)
    /\ cc = clean_customers customers
    /\ (exists e, r = project_fact (e, c, a))
    /\ match c with
       | Some c => In c cc
                   /\ key_eqb (Fact.customer_id r) (Customer.customer_id c)
                      = true
       | None => True
       end.
Proof.
  unfold transform_data.
  destruct (enrich parse (clean_transactions transactions))
    as [enriched|e] eqn:E; simpl; [|discriminate].
  intros Hok Hr. injection Hok as <- <-.
  unfold join_fact in Hr. apply in_map_iff in Hr.
  destruct Hr as ([[e c] a] & <- & Hj).
  apply merge_left_In in Hj.
  pose proof (merge_left_In _ _ _ _ _ _ Hj) as He.
  destruct (mapM_In _ _ _ E e He) as (t & Ht & Et).
  apply enrich_row_inv in Et. destruct Et as [Erow Eflag].
  exists t, c, a.
  split; [assumption|].
  split; [simpl; now rewrite Erow|].
  split; [simpl; now rewrite Erow|].
  split; [exact Eflag|].
  split; [reflexivity|].
  split; [now exists e|].
  destruct c as [c|]; [|exact I].
  apply merge_left_In_Some in Hj. exact Hj.
Qed.

(** [C8] Every row of the fact table built by [transform_data] has a
    non-null [amount], and its [is_high_value] is 1 exactly when the amount
    strictly exceeds 5000 and 0 exactly when it is at most 5000; at 5000 the
    flag is 0. *)
Theorem is_high_value_correct parse transactions customers accounts fact cc
    (Hrun : transform_data parse transactions customers accounts
            = Ok (fact, cc))
    (r : Fact.t) (Hr : In r fact) :
  exists a,
    Fact.amount r = Some a
    /\ (Fact.is_high_value r = 1%Z <-> (5000 < a)%Q)
    /\ (Fact.is_high_value r = 0%Z <-> (a <= 5000)%Q)
    /\ ((a == 5000)%Q -> Fact.is_high_value r = 0%Z).
Proof.
  destruct (fact_row_origin _ _ _ _ _ _ _ Hrun Hr)
    as (t & c & a & Ht & Eamt & _ & Eflag & _).
  unfold clean_transactions, dropna in Ht. apply filter_In in Ht.
  destruct Ht as [_ Hvalid]. unfold transactions_valid in Hvalid.
  apply andb_true_iff in Hvalid. destruct Hvalid as [Hamt _].
  destruct (Transaction.amount t) as [x|] eqn:Ex; [|discriminate].
  exists x. rewrite Eflag, Eamt.
  destruct (high_value_flag_spec x) as [H1 H0].
  repeat split; try apply H1; try apply H0.
  intros Heq. apply H0. rewrite Heq. apply Qle_refl.
Qed.

(** [C5] When every [customer_id] occurs at most once in the cleaned
    customers and every [account_id] at most once in accounts, the two left
    joins keep each cleaned-and-enriched transaction exactly once and in
    order, so the fact table has as many rows as that table. *)
Theorem fact_row_count parse transactions customers accounts enriched
    (Hcust : NoDup (map Customer.customer_id (clean_customers customers)))
    (Hacc : NoDup (map Account.account_id accounts))
    (Henr : enrich parse (clean_transactions transactions) = Ok enriched) :
  exists fact joined,
    transform_data parse transactions customers accounts
      = Ok (fact, clean_customers customers)
    /\ fact = map project_fact joined
    /\ map (fun j => fst (fst j)) joined = enriched
    /\ length fact = length enriched.
Proof.
  unfold transform_data, join_fact. rewrite Henr. simpl.
  eexists. eexists. split; [reflexivity|]. split; [reflexivity|].
  assert (E : forall joined : list (Enriched.t * option Customer.t
                                    * option Account.t),
             map (fun j => fst (fst j)) joined = map fst (map fst joined)).
  { intros joined. now rewrite map_map. }
  assert (Hrows : map (fun j => fst (fst j))
            (merge_left
               (fun j => Transaction.account_id (Enriched.row (fst j)))
               Account.account_id
               (merge_left
                  (fun e => Transaction.customer_id (Enriched.row e))
                  Customer.customer_id enriched (clean_customers customers))
               accounts) = enriched).
  { rewrite E, !merge_left_unique by assumption. reflexivity. }
  split; [exact Hrows|].
  rewrite length_map. rewrite <- Hrows at 2. now rewrite length_map.
Qed.

(** ** Sorting and grouping *)

Lemma insert_sorted_perm {R} (leb : R -> R -> bool) (x : R) (l : list R) :
  Permutation (insert_sorted leb x l) (x :: l).
Proof.
  induction l as [|y l IH]; simpl; [reflexivity|].
  destruct (leb x y); [reflexivity|].
  rewrite IH. apply perm_swap.
Qed.

Lemma sort_values_perm {R} (leb : R -> R -> bool) (l : list R) :
  Permutation (sort_values leb l) l.
Proof.
  induction l as [|x l IH]; simpl; [reflexivity|].
  rewrite insert_sorted_perm. now constructor.
Qed.

Lemma sort_values_In {R} (leb : R -> R -> bool) (l : list R) (x : R) :
  In x (sort_values leb l) <-> In x l.
Proof.
  split; apply Permutation_in;
    [|symmetry]; apply sort_values_perm.
Qed.

Lemma filter_absorb {R} (p q : R -> bool) (l : list R) :
  (forall r, In r l -> q r = true -> p r = true) ->
  filter q (filter p l) = filter q l.
Proof.
  induction l as [|x l IH]; simpl; intros Hqp; [reflexivity|].
  assert (IH' : filter q (filter p l) = filter q l) by auto.
  destruct (p x) eqn:Ep; simpl; rewrite IH'; [reflexivity|].
  destruct (q x) eqn:Eq; [|reflexivity].
  apply Hqp in Eq; [congruence | now left].
Qed.

Lemma column_absorb {R A} (c : R -> option A) (p : R -> bool) (l : list R) :
  (forall r, In r l -> p r = false -> c r = None) ->
  column c (filter p l) = column c l.
Proof.
  induction l as [|x l IH]; simpl; intros Hp; [reflexivity|].
  assert (IH' : column c (filter p l) = column c l) by auto.
  destruct (p x) eqn:Ep; simpl; rewrite IH'; [reflexivity|].
  now rewrite (Hp x (or_introl eq_refl) Ep).
Qed.

Lemma column_length {R A} (c : R -> option A) (l : list R) :
  length (column c l) = length (filter (fun r => notnull (c r)) l).
Proof.
  induction l as [|x l IH]; simpl; [reflexivity|].
  destruct (c x); simpl; congruence.
Qed.

Lemma filter_andb {R} (p q : R -> bool) (l : list R) :
  filter q (filter p l) = filter (fun r => p r && q r) l.
Proof.
  induction l as [|x l IH]; simpl; [reflexivity|].
  destruct (p x); simpl; [destruct (q x)|]; congruence.
Qed.

Lemma drop_duplicates_from_keeps {K} `{KeyLaws K} (l : list K) : forall seen k,
  In k l -> ~ In k seen ->
  In k (drop_duplicates_from (fun k => k) seen l).
Proof.
  induction l as [|x l IH]; simpl; intros seen k Hk Hseen; [tauto|].
  destruct (key_eqb_spec x k) as [-> | Hne].
  - apply seen_not_In in Hseen. rewrite Hseen. now left.
  - destruct Hk as [Hk | Hk]; [congruence|].
    destruct (existsb (key_eqb x) seen); [now apply IH|].
    right. apply IH; [assumption|].
    simpl. intros [E | Hin]; [congruence | contradiction].
Qed.

Section GroupByFacts.
Context {R K : Type} `{KeyLaws K}.
Variable by_ : R -> option K.

Lemma has_key_Some (k : K) (r : R) :
  has_key by_ k r = true <-> by_ r = Some k.
Proof.
  unfold has_key. destruct (by_ r) as [k'|].
  - rewrite key_eqb_eq. split; congruence.
  - split; discriminate.
Qed.

(** The group keys are the distinct non-null keys of the table. *)
Lemma group_keys_perm (rows : list R) :
  Permutation (group_keys by_ rows)
    (drop_duplicates (fun k => k) (column by_ rows)).
Proof. apply sort_values_perm. Qed.

Lemma distinct_keys_NoDup (rows : list R) :
  NoDup (drop_duplicates (fun k : K => k) (column by_ rows)).
Proof.
  pose proof (drop_duplicates_NoDup (fun k : K => k) (column by_ rows)) as Hnd.
  now rewrite map_id in Hnd.
Qed.

Lemma distinct_keys_In (rows : list R) (k : K) :
  In k (drop_duplicates (fun k => k) (column by_ rows))
  <-> In k (column by_ rows).
Proof.
  split.
  - apply subseq_In, drop_duplicates_from_subseq.
  - intros Hk. apply drop_duplicates_from_keeps; [assumption | intros []].
Qed.

Lemma column_In (rows : list R) (k : K) :
  In k (column by_ rows) <-> exists r, In r rows /\ by_ r = Some k.
Proof.
  induction rows as [|x rows IH]; simpl.
  - split; [tauto | intros (r & [] & _)].
  - destruct (by_ x) as [k'|] eqn:E; simpl; rewrite IH; split.
    + intros [-> | (r & Hr & Er)]; eauto.
    + intros (r & [-> | Hr] & Er); [left; congruence | eauto].
    + intros (r & Hr & Er); eauto.
    + intros (r & [-> | Hr] & Er); [congruence | eauto].
Qed.

(** Rows with a null key are in no group: removing them (and any rows [p]
    rejects only among them) leaves the grouping unchanged. *)
Lemma groupby_dropna (p : R -> bool) (rows : list R) :
  (forall r, In r rows -> p r = false -> by_ r = None) ->
  groupby by_ (filter p rows) = groupby by_ rows.
Proof.
  intros Hp. unfold groupby, group_keys.
  rewrite column_absorb by assumption.
  apply map_ext. intros k. f_equal.
  apply filter_absorb. intros r Hin Hr.
  destruct (p r) eqn:Ep; [reflexivity|].
  apply has_key_Some in Hr. rewrite (Hp r Hin Ep) in Hr. discriminate.
Qed.

Lemma groupby_rows (rows : list R) (k : K) (g : list R) :
  In (k, g) (groupby by_ rows) ->
  forall r, In r g -> In r rows /\ by_ r = Some k.
Proof.
  unfold groupby. rewrite in_map_iff. intros (k' & E & _) r Hr.
  injection E as -> <-. apply filter_In in Hr.
  now rewrite has_key_Some in Hr.
Qed.

Lemma covered_not_In (ks : list K) (k : K) (r : R) :
  ~ In k ks -> has_key by_ k r = true -> covered by_ ks r = false.
Proof.
  intros Hk Hr. apply has_key_Some in Hr.
  unfold covered. destruct (existsb _ ks) eqn:E; [|reflexivity].
  apply existsb_exists in E. destruct E as (k' & Hk' & E).
  apply has_key_Some in E. congruence.
Qed.

Lemma count_split {A} (c : R -> option A) (p q : R -> bool) (rows : list R) :
  (forall r, p r = true -> q r = false) ->
  length (column c (filter p rows)) + length (column c (filter q rows))
  = length (column c (filter (fun r => p r || q r) rows)).
Proof.
  intros Hpq. induction rows as [|x rows IH]; simpl; [reflexivity|].
  destruct (p x) eqn:Ep; simpl.
  - rewrite (Hpq x Ep). destruct (c x); simpl; lia.
  - destruct (q x); simpl; [destruct (c x); simpl|]; lia.
Qed.

Lemma count_groups {A} (c : R -> option A) (rows : list R) (ks : list K) :
  NoDup ks ->
  list_sum (map (fun k => agg_count c (filter (has_key by_ k) rows)) ks)
  = length (column c (filter (covered by_ ks) rows)).
Proof.
  unfold agg_count.
  induction 1 as [|k ks Hk Hnd IH]; simpl.
  - induction rows; simpl; auto.
  - rewrite IH. apply count_split.
    intros r. now apply covered_not_In.
Qed.

(** Conservation of counts: over all groups, the non-null cells of a column
    add up to those of the rows that have a key. *)
Lemma groupby_count {A} (c : R -> option A) (rows : list R) :
  list_sum (map (fun g => agg_count c (snd g)) (groupby by_ rows))
  = length (column c (filter (fun r => notnull (by_ r)) rows)).
Proof.
  unfold groupby. rewrite map_map. simpl.
  rewrite (Permutation_list_sum
             (Permutation_map _ (group_keys_perm rows))).
  rewrite count_groups by apply distinct_keys_NoDup.
  do 2 f_equal. apply filter_ext_in. intros r Hr. unfold covered.
  destruct (by_ r) as [k|] eqn:E; simpl.
  - apply existsb_exists. exists k. split.
    + apply distinct_keys_In, column_In. eauto.
    + now apply has_key_Some.
  - destruct (existsb _ _) eqn:Ex; [|reflexivity].
    apply existsb_exists in Ex. destruct Ex as (k & _ & Hk).
    apply has_key_Some in Hk. congruence.
Qed.
End GroupByFacts.

(** ** The sample tables through the pipeline *)

Example ex_transform :
  transform_data parse_iso_date ex_transactions ex_customers ex_accounts
  = Ok (ex_fact, ex_customers).
Proof. reflexivity. Qed.

Example ex_fact_columns :
  map (fun r => (Fact.transaction_id r, Fact.transaction_month r,
                 Fact.is_high_value r, Fact.age r, Fact.account_type r))
    ex_fact
  = [ (Some 1%Z, Some "2024-01", 1%Z, Some 30%Z, Some "Checking");
      (Some 2%Z, Some "2024-02", 0%Z, Some 40%Z, Some "Checking");
      (Some 3%Z, Some "2024-02", 0%Z, None, None) ].
Proof. reflexivity. Qed.

Example ex_category_analysis :
  map (fun c => (Category.merchant_category c, Category.transaction_count c,
                 Qred (Category.total_amount c)))
    (category_analysis ex_fact)
  = [ ("Travel", 2, 11000%Q); ("Grocery", 1, 100%Q) ].
Proof. reflexivity. Qed.

(** ** Monthly Summary and Category Analysis *)

Lemma monthly_key_account_type (r : Fact.t) :
  notnull (Fact.account_type r) = false -> monthly_key r = None.
Proof.
  unfold monthly_key.
  destruct (Fact.transaction_month r), (Fact.account_type r);
    simpl; congruence.
Qed.

(** [C2], as the code has it: a fact row whose [account_type] is null is
    dropped from the Monthly Summary.  The summary is the summary of the
    rows with a non-null [account_type], and every row of a group carries
    the group's [account_type]. *)
Theorem monthly_summary_drops_null_account_type (fact : list Fact.t) :
  monthly_summary fact
    = monthly_summary (filter (fun r => notnull (Fact.account_type r)) fact)
  /\ (forall k g r,
        In (k, g) (groupby monthly_key fact) -> In r g ->
        Fact.account_type r = Some (snd k)).
Proof.
  split.
  - unfold monthly_summary.
    rewrite groupby_dropna; [reflexivity|].
    intros r _. apply monthly_key_account_type.
  - intros k g r Hg Hr.
    destruct (groupby_rows monthly_key fact k g Hg r Hr) as [_ E].
    unfold monthly_key in E.
    destruct (Fact.transaction_month r), (Fact.account_type r);
      try discriminate.
    now injection E as <-.
Qed.

(** [C2] fails: the only row of this fact table has a null [account_type];
    it is in no group, and the Monthly Summary is empty. *)
Lemma null_account_type_row_dropped :
  ~ (forall r, In r null_account_fact -> Fact.account_type r = None ->
       exists k g, In (k, g) (groupby monthly_key null_account_fact)
                   /\ In r g)
  /\ map Fact.account_type null_account_fact = [None]
  /\ groupby monthly_key null_account_fact = []
  /\ monthly_summary null_account_fact = [].
Proof.
  split; [|repeat split].
  intros Hclaim.
  destruct (Hclaim _ (or_introl eq_refl) eq_refl) as (k & g & [] & _).
Qed.

(** [C3], as the code has it: the [transaction_count]s of the Monthly
    Summary add up to the number of fact rows whose [transaction_month],
    [account_type] and [transaction_id] are all non-null; those of the
    Category Analysis to the number of fact rows whose [merchant_category]
    and [transaction_id] are non-null. *)
Theorem transaction_count_conservation (fact : list Fact.t) :
  list_sum (map Monthly.transaction_count (monthly_summary fact))
    = length (filter monthly_counted fact)
  /\ list_sum (map Category.transaction_count (category_analysis fact))
    = length (filter category_counted fact).
Proof.
  split.
  - unfold monthly_summary.
    rewrite (Permutation_list_sum
               (Permutation_map _ (sort_values_perm _ _))).
    rewrite map_map.
    rewrite (map_ext _ (fun g => agg_count Fact.transaction_id (snd g)))
      by (intros [[m a] rows]; reflexivity).
    rewrite groupby_count, column_length, filter_andb.
    f_equal. apply filter_ext. intros r. unfold monthly_counted, monthly_key.
    destruct (Fact.transaction_month r), (Fact.account_type r); reflexivity.
  - unfold category_analysis.
    rewrite (Permutation_list_sum
               (Permutation_map _ (sort_values_perm _ _))).
    rewrite map_map.
    rewrite (map_ext _ (fun g => agg_count Fact.transaction_id (snd g)))
      by (intros [c rows]; reflexivity).
    rewrite groupby_count, column_length, filter_andb.
    reflexivity.
Qed.

(** [C3] fails: each of these fact tables has one row, and the
    [transaction_count]s add up to 0: the row has a null [account_type], a
    null [merchant_category], or a null [transaction_id]. *)
Lemma transaction_count_not_conserved :
  list_sum (map Monthly.transaction_count (monthly_summary null_account_fact))
    <> length null_account_fact
  /\ list_sum (map Category.transaction_count
                 (category_analysis null_category_fact))
     <> length null_category_fact
  /\ list_sum (map Monthly.transaction_count (monthly_summary null_id_fact))
     <> length null_id_fact
  /\ list_sum (map Category.transaction_count
                 (category_analysis null_id_fact))
     <> length null_id_fact
  /\ length null_account_fact = 1
  /\ length null_category_fact = 1
  /\ length null_id_fact = 1
  /\ list_sum (map Monthly.transaction_count
                 (monthly_summary null_account_fact)) = 0
  /\ list_sum (map Category.transaction_count
                 (category_analysis null_category_fact)) = 0
  /\ list_sum (map Monthly.transaction_count (monthly_summary null_id_fact))
     = 0
  /\ list_sum (map Category.transaction_count
                 (category_analysis null_id_fact)) = 0.
Proof. repeat split; discriminate. Qed.

(** ** Customer metrics *)

(** [C10] In the fact table built by [transform_data], a row whose
    [customer_id] matches no cleaned customer has null [age], [city],
    [credit_score] and [employment_status] and is in no customer group:
    the customer metrics, the 90th-percentile threshold and the High-Value
    Customers are those of the fact table without such rows. *)
Theorem unmatched_customers_excluded parse transactions customers accounts
    fact cc
    (Hrun : transform_data parse transactions customers accounts
            = Ok (fact, cc)) :
  (forall r, In r fact -> matched cc r = false ->
     Fact.age r = None /\ Fact.city r = None /\ Fact.credit_score r = None
     /\ Fact.employment_status r = None
     /\ forall k g, In (k, g) (groupby customer_key fact) -> ~ In r g)
  /\ customer_metrics fact = customer_metrics (filter (matched cc) fact)
  /\ top_10_threshold (customer_metrics fact)
     = top_10_threshold (customer_metrics (filter (matched cc) fact))
  /\ high_value_customers fact
     = high_value_customers (filter (matched cc) fact).
Proof.
  assert (Hnull : forall r, In r fact -> matched cc r = false ->
            Fact.age r = None /\ Fact.city r = None
            /\ Fact.credit_score r = None
            /\ Fact.employment_status r = None).
  { intros r Hr Hm.
    destruct (fact_row_origin _ _ _ _ _ _ _ Hrun Hr)
      as (t & c & a & _ & _ & _ & _ & _ & (e & ->) & Hc).
    destruct c as [c|]; [|now repeat split].
    destruct Hc as [Hin Heq]. unfold matched in Hm.
    assert (Hex : existsb
              (fun c0 => key_eqb (Fact.customer_id (project_fact (e, Some c, a)))
                           (Customer.customer_id c0)) cc = true).
    { apply existsb_exists. eauto. }
    congruence. }
  assert (Hkey : forall r, In r fact -> matched cc r = false ->
            customer_key r = None).
  { intros r Hr Hm. destruct (Hnull r Hr Hm) as (Ea & _).
    unfold customer_key. rewrite Ea.
    now destruct (Fact.customer_id r). }
  assert (Hgroups : groupby customer_key (filter (matched cc) fact)
                    = groupby customer_key fact).
  { apply groupby_dropna. exact Hkey. }
  assert (Hmetrics : customer_metrics fact
                     = customer_metrics (filter (matched cc) fact)).
  { unfold customer_metrics. now rewrite Hgroups. }
  split; [|split; [exact Hmetrics|split]].
  - intros r Hr Hm. destruct (Hnull r Hr Hm) as (Ea & Eci & Ecs & Ees).
    repeat split; try assumption.
    intros k g Hg Hin.
    destruct (groupby_rows customer_key fact k g Hg r Hin) as [_ E].
    rewrite (Hkey r Hr Hm) in E. discriminate.
  - now rewrite <- Hmetrics.
  - unfold high_value_customers. now rewrite <- Hmetrics.
Qed.

(** ** Percentile ranks *)

Lemma Qle_bool_false (x v : Q) : Qle_bool x v = false <-> (v < x)%Q.
Proof.
  split.
  - intros E. apply Qnot_le_lt. intros Hle.
    apply Qle_bool_iff in Hle. congruence.
  - intros Hlt. destruct (Qle_bool x v) eqn:E; [|reflexivity].
    apply Qle_bool_iff in E. exfalso. eapply Qlt_not_le; eassumption.
Qed.

Lemma count_gt_eq_le (xs : list Q) (v : Q) :
  count_gt xs v + count_eq xs v <= length xs.
Proof.
  unfold count_gt, count_eq.
  induction xs as [|x xs IH]; simpl; [lia|].
  destruct (Qle_bool x v) eqn:Ele; simpl.
  - destruct (Qeq_bool x v); simpl; lia.
  - destruct (Qeq_bool x v) eqn:Eeq; simpl; [|lia].
    apply Qeq_bool_iff in Eeq. apply Qle_bool_false in Ele.
    rewrite Eeq in Ele. exfalso. eapply Qlt_irrefl; eassumption.
Qed.

Lemma count_eq_pos (xs : list Q) (v : Q) : In v xs -> 1 <= count_eq xs v.
Proof.
  unfold count_eq. induction xs as [|x xs IH]; simpl; intros Hv; [tauto|].
  destruct Hv as [-> | Hv].
  - rewrite Qeq_bool_refl. simpl. lia.
  - destruct (Qeq_bool x v); simpl; auto with arith.
Qed.

(** What is above or level with a greater value is above a smaller one. *)
Lemma count_gt_mono (xs : list Q) (v v' : Q) :
  (v < v')%Q -> count_gt xs v' + count_eq xs v' <= count_gt xs v.
Proof.
  intros Hlt. unfold count_gt, count_eq.
  induction xs as [|x xs IH]; simpl; [lia|].
  destruct (Qle_bool x v') eqn:Ele'; simpl.
  - destruct (Qeq_bool x v') eqn:Eeq; simpl.
    + apply Qeq_bool_iff in Eeq.
      assert (E : Qle_bool x v = false).
      { apply Qle_bool_false. now rewrite Eeq. }
      rewrite E. simpl. lia.
    + destruct (Qle_bool x v); simpl; lia.
  - apply Qle_bool_false in Ele'.
    assert (E : Qle_bool x v = false).
    { apply Qle_bool_false. eapply Qlt_trans; eassumption. }
    rewrite E. simpl.
    destruct (Qeq_bool x v') eqn:Eeq; simpl; [|lia].
    apply Qeq_bool_iff in Eeq. rewrite Eeq in Ele'.
    exfalso. eapply Qlt_irrefl; eassumption.
Qed.

Lemma rank_pct_desc_Qeq (xs : list Q) (v v' : Q) :
  (v == v')%Q -> rank_pct_desc xs v = rank_pct_desc xs v'.
Proof.
  intros E. unfold rank_pct_desc, count_gt, count_eq.
  assert (Hgt : filter (fun x => negb (Qle_bool x v)) xs
                = filter (fun x => negb (Qle_bool x v')) xs).
  { apply filter_ext. intros x. now rewrite E. }
  assert (Heq : filter (fun x => Qeq_bool x v) xs
                = filter (fun x => Qeq_bool x v') xs).
  { apply filter_ext. intros x. now rewrite E. }
  now rewrite Hgt, Heq.
Qed.

Lemma Zpos_of_nat (n : nat) : n <> 0 -> Zpos (Pos.of_nat n) = Z.of_nat n.
Proof.
  intros Hn. rewrite <- positive_nat_Z. now rewrite Nat2Pos.id.
Qed.

Lemma rank_pct_desc_bounds (xs : list Q) (v : Q) :
  In v xs -> (0 < rank_pct_desc xs v <= 1)%Q.
Proof.
  intros Hv. pose proof (count_gt_eq_le xs v) as Hle.
  pose proof (count_eq_pos xs v Hv) as Hpos.
  unfold rank_pct_desc, Qlt, Qle. simpl Qnum. simpl Qden.
  rewrite Zpos_of_nat by lia. lia.
Qed.

Lemma rank_pct_desc_antitone (xs : list Q) (v v' : Q) :
  In v xs -> In v' xs -> (v < v')%Q ->
  (rank_pct_desc xs v' < rank_pct_desc xs v)%Q.
Proof.
  intros Hv Hv' Hlt. pose proof (count_gt_mono xs v v' Hlt) as Hm.
  pose proof (count_eq_pos xs v Hv) as Hpos.
  pose proof (count_eq_pos xs v' Hv') as Hpos'.
  unfold rank_pct_desc, Qlt. simpl Qnum. simpl Qden.
  apply Z.mul_lt_mono_pos_r; lia.
Qed.

(** The fraction is the mean of the positions [g+1 .. g+e] over the number
    of values. *)
Lemma rank_pct_desc_average (xs : list Q) (v : Q) :
  xs <> [] ->
  (rank_pct_desc xs v
   == (inject_Z (Z.of_nat (count_gt xs v))
       + (inject_Z (Z.of_nat (count_eq xs v)) + 1) / 2)
      / inject_Z (Z.of_nat (length xs)))%Q.
Proof.
  intros Hxs. unfold rank_pct_desc.
  assert (Hn : length xs <> 0) by (destruct xs; simpl; congruence).
  rewrite Qmake_Qdiv, Zpos_of_nat by lia.
  rewrite !Nat2Z.inj_add, !Nat2Z.inj_mul.
  rewrite !inject_Z_plus, !inject_Z_mult.
  change (inject_Z (Z.of_nat 2)) with 2%Q.
  change (inject_Z (Z.of_nat 1)) with 1%Q.
  assert (Hq : ~ (inject_Z (Z.of_nat (length xs)) == 0)%Q).
  { unfold Qeq. simpl. lia. }
  field. exact Hq.
Qed.

Lemma add_rank_spent (hv : list Metrics.t) :
  map (fun h => Metrics.total_spent (HighValue.metrics h)) (add_rank hv)
  = map Metrics.total_spent hv.
Proof.
  unfold add_rank. rewrite map_map. reflexivity.
Qed.

Lemma add_rank_In (hv : list Metrics.t) (r : HighValue.t) :
  In r (add_rank hv) ->
  In (HighValue.metrics r) hv
  /\ HighValue.rank r
     = rank_pct_desc (map Metrics.total_spent hv)
         (Metrics.total_spent (HighValue.metrics r)).
Proof.
  unfold add_rank. rewrite in_map_iff. intros (m & <- & Hm). now split.
Qed.

(** [C1], as the code has it: the rank of a High-Value Customers row is the
    percentile rank of its [total_spent] among the retained rows only,
    descending with average ties: with [g] retained rows of greater and [e]
    of equal [total_spent], it is [(g + (e + 1) / 2) / n] over the [n]
    retained rows.  It lies in (0,1], a greater [total_spent] has a smaller
    rank, and equal [total_spent] has equal rank. *)
Theorem rank_among_retained (fact : list Fact.t) (r : HighValue.t)
    (Hr : In r (high_value_customers fact)) :
  let spent := map (fun h => Metrics.total_spent (HighValue.metrics h))
                 (high_value_customers fact) in
  let v := Metrics.total_spent (HighValue.metrics r) in
  (HighValue.rank r
   == (inject_Z (Z.of_nat (count_gt spent v))
       + (inject_Z (Z.of_nat (count_eq spent v)) + 1) / 2)
      / inject_Z (Z.of_nat (length (high_value_customers fact))))%Q
  /\ (0 < HighValue.rank r <= 1)%Q
  /\ (forall r', In r' (high_value_customers fact) ->
        (v < Metrics.total_spent (HighValue.metrics r'))%Q ->
        (HighValue.rank r' < HighValue.rank r)%Q)
  /\ (forall r', In r' (high_value_customers fact) ->
        (Metrics.total_spent (HighValue.metrics r') == v)%Q ->
        HighValue.rank r' = HighValue.rank r).
Proof.
  intros spent v. unfold high_value_customers in *.
  set (hv := retained (customer_metrics fact)) in *.
  assert (Espent : spent = map Metrics.total_spent hv)
    by apply add_rank_spent.
  assert (Hlen : length (add_rank hv) = length spent)
    by (unfold spent; now rewrite length_map).
  destruct (add_rank_In hv r Hr) as [Hm Erank].
  assert (Hv : In v spent).
  { rewrite Espent. now apply in_map. }
  rewrite Erank, <- Espent, Hlen. fold v.
  split; [|split; [|split]].
  - apply rank_pct_desc_average. intros E. rewrite E in Hv. destruct Hv.
  - now apply rank_pct_desc_bounds.
  - intros r' Hr' Hlt. destruct (add_rank_In hv r' Hr') as [Hm' Erank'].
    rewrite Erank', <- Espent.
    apply rank_pct_desc_antitone; try assumption.
    rewrite Espent. now apply in_map.
  - intros r' Hr' Heq. destruct (add_rank_In hv r' Hr') as [_ Erank'].
    rewrite Erank', <- Espent. now apply rank_pct_desc_Qeq.
Qed.

(** [C1] fails: of eleven customers spending 100, 200, ..., 1100 the two
    highest are retained.  The highest spender gets rank 1/2, not 1.0, and
    the other one gets 1.0; among all eleven groups the ranks would be 1/11
    and 2/11. *)
Lemma rank_not_among_all_groups :
  ~ (forall h, In h (high_value_customers eleven_fact) ->
       (HighValue.rank h
        == rank_among_all_groups eleven_fact
             (Metrics.total_spent (HighValue.metrics h)))%Q)
  /\ ~ (forall h, In h (high_value_customers eleven_fact) ->
          (forall h', In h' (high_value_customers eleven_fact) ->
             (Metrics.total_spent (HighValue.metrics h')
              <= Metrics.total_spent (HighValue.metrics h))%Q) ->
          (HighValue.rank h == 1)%Q)
  /\ map (fun h => (Metrics.customer_id (HighValue.metrics h),
                    Qred (Metrics.total_spent (HighValue.metrics h)),
                    Qred (HighValue.rank h)))
       (high_value_customers eleven_fact)
     = [ ("C11", 1100%Q, (1 # 2)%Q); ("C10", 1000%Q, 1%Q) ]
  /\ length (customer_metrics eleven_fact) = 11
  /\ Qred (rank_among_all_groups eleven_fact 1100) = (1 # 11)%Q
  /\ Qred (rank_among_all_groups eleven_fact 1000) = (2 # 11)%Q.
Proof.
  split; [|split; [|repeat split]].
  - intros Hclaim.
    specialize (Hclaim _ (or_introl eq_refl)). vm_compute in Hclaim.
    discriminate.
  - intros Hclaim.
    assert (Hrank : (HighValue.rank
                       (nth 0 (high_value_customers eleven_fact)
                          {| HighValue.metrics :=
                               {| Metrics.customer_id := "";
                                  Metrics.age := 0; Metrics.city := "";
                                  Metrics.credit_score := 0;
                                  Metrics.employment_status := "";
                                  Metrics.transaction_count := 0;
                                  Metrics.total_spent := 0;
                                  Metrics.high_value_txn_count := 0 |};
                             HighValue.rank := 0 |}) == 1)%Q).
    { apply Hclaim; [left; reflexivity|].
      intros h' [<- | [<- | []]]; vm_compute; discriminate. }
    vm_compute in Hrank. discriminate.
Qed.

(** ** No failure in generate_insights *)

Lemma column_nil_filter {R A} (c : R -> option A) (p : R -> bool)
    (l : list R) :
  column c l = [] -> column c (filter p l) = [].
Proof.
  induction l as [|x l IH]; simpl; [reflexivity|].
  destruct (c x) eqn:E; [discriminate|]. intros Hl.
  destruct (p x); simpl; [rewrite E|]; auto.
Qed.

Lemma filter_all {R} (p : R -> bool) (l : list R) :
  (forall r, In r l -> p r = true) -> filter p l = l.
Proof.
  induction l as [|x l IH]; simpl; intros Hp; [reflexivity|].
  rewrite (Hp x (or_introl eq_refl)). f_equal. auto.
Qed.

Lemma nth_Forall {A} (P : A -> Prop) (l : list A) (d : A) (i : nat) :
  Forall P l -> P d -> P (nth i l d).
Proof.
  intros Hl Hd. destruct (nth_in_or_default i l d) as [Hin | ->]; [|exact Hd].
  rewrite Forall_forall in Hl. auto.
Qed.

(** The quantile of values that are all 0 is 0; that of no value is NaN. *)
Lemma quantile_zeros (q : Q) (xs : list Q) :
  xs <> [] -> Forall (fun x => x = 0%Q) xs ->
  exists t, quantile q xs = Some t /\ (t == 0)%Q.
Proof.
  intros Hxs Hzero. unfold quantile.
  pose proof (sort_values_perm (Qleb_row (fun x => x)) xs) as Hperm.
  assert (Hs : Forall (fun x => x = 0%Q)
                 (sort_values (Qleb_row (fun x => x)) xs)).
  { eapply Permutation_Forall; [symmetry; exact Hperm | exact Hzero]. }
  destruct (sort_values (Qleb_row (fun x => x)) xs) as [|x s] eqn:E.
  - apply Permutation_nil in Hperm. contradiction.
  - eexists. split; [reflexivity|].
    rewrite (nth_Forall _ _ _ _ Hs eq_refl).
    rewrite (nth_Forall (fun x => x = 0%Q) _ 0%Q _ Hs eq_refl).
    ring.
Qed.

Lemma quantile_nil (q : Q) : quantile q [] = None.
Proof. reflexivity. Qed.

Lemma customer_metrics_null_amounts (fact : list Fact.t) :
  column Fact.amount fact = [] ->
  Forall (fun m => Metrics.total_spent m = 0%Q) (customer_metrics fact).
Proof.
  intros Hnull. unfold customer_metrics, groupby.
  rewrite Forall_forall. intros m Hm.
  apply in_map_iff in Hm. destruct Hm as (g & <- & Hg).
  apply in_map_iff in Hg. destruct Hg as (k & <- & _).
  destruct k as [[[[c a] ci] cs] es]. simpl.
  unfold agg_sum. now rewrite column_nil_filter.
Qed.

(** [C4], as the code has it: [generate_insights] returns on every fact
    table.  On the empty table the three summaries are empty.  On a table
    without any valid amount every customer group has [total_spent] 0, the
    threshold is 0 and all groups are retained.  When there is no customer
    group the quantile is undefined (NaN) and the High-Value Customers are
    empty, without failure. *)
Theorem generate_insights_never_fails (fact : list Fact.t) :
  exists monthly hv category,
    generate_insights fact = Ok (monthly, hv, category)
    /\ (fact = [] -> monthly = [] /\ hv = [] /\ category = [])
    /\ (column Fact.amount fact = [] ->
          length hv = length (customer_metrics fact)
          /\ (forall h, In h hv ->
                Metrics.total_spent (HighValue.metrics h) = 0%Q)
          /\ (customer_metrics fact <> [] ->
                exists t, top_10_threshold (customer_metrics fact) = Some t
                          /\ (t == 0)%Q))
    /\ (customer_metrics fact = [] ->
          top_10_threshold (customer_metrics fact) = None /\ hv = []).
Proof.
  eexists. eexists. eexists. split; [reflexivity|].
  split; [|split].
  - intros ->. repeat split.
  - intros Hnull.
    pose proof (customer_metrics_null_amounts fact Hnull) as Hzero.
    set (cm := customer_metrics fact) in *.
    assert (Hthr : cm <> [] ->
              exists t, top_10_threshold cm = Some t /\ (t == 0)%Q).
    { intros Hcm. apply quantile_zeros.
      - destruct cm; simpl; congruence.
      - rewrite Forall_forall in *. intros x Hx.
        apply in_map_iff in Hx. destruct Hx as (m & <- & Hm). auto. }
    assert (Hkeep : filter (fun m => ge_threshold (Metrics.total_spent m)
                                       (top_10_threshold cm)) cm = cm).
    { apply filter_all. intros m Hm.
      destruct Hthr as (t & -> & Ht).
      - intros E. rewrite E in Hm. destruct Hm.
      - rewrite Forall_forall in Hzero. rewrite (Hzero m Hm).
        simpl. apply Qle_bool_iff. rewrite Ht. apply Qle_refl. }
    unfold high_value_customers. fold cm. unfold retained. rewrite Hkeep.
    split; [|split; [|exact Hthr]].
    + unfold add_rank. rewrite length_map.
      apply Permutation_length, sort_values_perm.
    + intros h Hh. apply add_rank_In in Hh. destruct Hh as [Hm _].
      apply sort_values_In in Hm.
      rewrite Forall_forall in Hzero. auto.
  - intros Hcm. unfold high_value_customers. rewrite Hcm. now split.
Qed.

(** [C4] fails: the first table has a customer group and no valid amount;
    [generate_insights] returns, the threshold is 0 and the group is
    retained with [total_spent] 0.  The second table has no customer group:
    the quantile is NaN and the High-Value Customers come back empty, again
    without failure. *)
Lemma null_amounts_do_not_fail :
  (null_amount_fact <> []
   /\ column Fact.amount null_amount_fact = []
   /\ (forall e, generate_insights null_amount_fact <> Raise e)
   /\ option_map Qred (top_10_threshold (customer_metrics null_amount_fact))
      = Some 0%Q
   /\ exists monthly hv category,
        generate_insights null_amount_fact = Ok (monthly, hv, category)
        /\ map (fun h => (Metrics.customer_id (HighValue.metrics h),
                          Metrics.total_spent (HighValue.metrics h)))
             hv = [ ("C1", 0%Q) ])
  /\ (unknown_customer_fact <> []
      /\ top_10_threshold (customer_metrics unknown_customer_fact) = None
      /\ (forall e, generate_insights unknown_customer_fact <> Raise e)
      /\ exists monthly category,
           generate_insights unknown_customer_fact
           = Ok (monthly, [], category)).
Proof.
  split.
  - split; [discriminate|]. split; [reflexivity|].
    split; [discriminate|]. split; [reflexivity|].
    do 3 eexists. split; reflexivity.
  - split; [discriminate|]. split; [reflexivity|].
    split; [discriminate|]. do 2 eexists. reflexivity.
Qed.

(** ** The run entry point *)

(** A failing body: what it printed, then the handler's one line, and the
    same exception again. *)
Lemma try_except_reraise {A} (out : list string) (e : Exception) :
  try_except (A := A) (out, Raise e)
    (fun e => _ <~ print ("Pipeline failed: " ++ str e) ;; io_raise e)
  = (app out ["Pipeline failed: " ++ str e], Raise e).
Proof. reflexivity. Qed.

Section RunFacts.
Variable read_transactions : string -> result (list Transaction.t).
Variable read_customers : string -> result (list Customer.t).
Variable read_accounts : string -> result (list Account.t).
Variable parse_datetime : string -> result Timestamp.
Variable monthly_to_string : list Monthly.t -> string.
Variable high_value_to_string : list HighValue.t -> string.
Variable category_to_string : list Category.t -> string.

Local Abbreviation run_ :=
  (run read_transactions read_customers read_accounts parse_datetime
     monthly_to_string high_value_to_string category_to_string).

Local Abbreviation display_ :=
  (display_insights monthly_to_string high_value_to_string
     category_to_string).

Local Abbreviation pipeline_ :=
  (pipeline read_transactions read_customers read_accounts parse_datetime
     monthly_to_string high_value_to_string category_to_string).

(** [C9] Whichever stage fails, [run] prints exactly one line of its own,
    the diagnostic "Pipeline failed: ..." with the failure's text, and
    raises that same failure again; it returns summary tables only when
    every stage succeeded, and then all three of them. *)
Theorem run_reraises (self : BankingData) :
  match pipeline_ self with
  | (out, Raise e) =>
      run_ self = (app out ["Pipeline failed: " ++ str e], Raise e)
  | (out, Ok insights) => run_ self = (out, Ok insights)
  end
  /\
  match extract_data read_transactions read_customers read_accounts self with
  | Raise e => run_ self = (["Pipeline failed: " ++ str e], Raise e)
  | Ok (transactions, customers, accounts) =>
      match transform_data parse_datetime transactions customers accounts with
      | Raise e => run_ self = (["Pipeline failed: " ++ str e], Raise e)
      | Ok (fact, _) =>
          match generate_insights fact with
          | Raise e => run_ self = (["Pipeline failed: " ++ str e], Raise e)
          | Ok (monthly, hv, category) =>
              run_ self
              = (fst (display_ monthly hv category),
                 Ok (monthly, hv, category))
          end
      end
  end.
Proof.
  split.
  - unfold run. destruct (pipeline_ self) as [out [insights|e]]; reflexivity.
  - unfold run, pipeline.
    destruct (extract_data _ _ _ self)
      as [[[transactions customers] accounts]|e]; [|reflexivity].
    simpl.
    destruct (transform_data _ transactions customers accounts)
      as [[fact cc]|e]; reflexivity.
Qed.
End RunFacts.

Example ex_run_source_failure :
  run (fun _ => Raise {| exc_class := "HTTPError"; str := "HTTP Error 404" |})
      (fun _ => Ok ex_customers) (fun _ => Ok ex_accounts) parse_iso_date
      (fun _ => "") (fun _ => "") (fun _ => "")
      {| data_path := default_data_path |}
  = ([ "Pipeline failed: HTTP Error 404" ],
     Raise {| exc_class := "HTTPError"; str := "HTTP Error 404" |}).
Proof. reflexivity. Qed.

Example ex_run_date_failure :
  run (fun _ => Ok [ txn 1 "C1" "A1" "15/01/2024" 6000 "Travel" ])
      (fun _ => Ok ex_customers) (fun _ => Ok ex_accounts) parse_iso_date
      (fun _ => "") (fun _ => "") (fun _ => "")
      {| data_path := default_data_path |}
  = ([ "Pipeline failed: Unknown datetime string format" ],
     Raise {| exc_class := "ValueError";
              str := "Unknown datetime string format" |}).
Proof. reflexivity. Qed.

Example ex_run_success :
  fst (run (fun _ => Ok ex_transactions) (fun _ => Ok ex_customers)
         (fun _ => Ok ex_accounts) parse_iso_date
         (fun _ => "<monthly>") (fun _ => "<customers>")
         (fun _ => "<categories>")
         {| data_path := default_data_path |})
  = [ "Monhly transactions"; "<monthly>"; "Top 10 customers"; "<customers>";
      "Merchant categories"; "<categories>" ].
Proof. reflexivity. Qed.

(** ** The theorems at the sample tables *)

Lemma clean_customers_NoDup (customers : list Customer.t) :
  NoDup (map Customer.customer_id (clean_customers customers)).
Proof.
  unfold clean_customers, dropna.
  apply filter_keeps_distinct, drop_duplicates_NoDup.
Qed.

Lemma fact_row_count_ex :
  exists fact joined,
    transform_data parse_iso_date ex_transactions ex_customers ex_accounts
      = Ok (fact, clean_customers ex_customers)
    /\ fact = map project_fact joined
    /\ map (fun j => fst (fst j)) joined = ex_enriched
    /\ length fact = length ex_enriched.
Proof.
  apply (fact_row_count parse_iso_date ex_transactions ex_customers
           ex_accounts ex_enriched).
  - apply clean_customers_NoDup.
  - repeat constructor. simpl. tauto.
  - reflexivity.
Defined.

Lemma is_high_value_correct_ex :
  exists a,
    Fact.amount (nth 2 ex_fact (fact_row None "" None None None None))
      = Some a
    /\ (Fact.is_high_value
          (nth 2 ex_fact (fact_row None "" None None None None)) = 1%Z
        <-> (5000 < a)%Q)
    /\ (Fact.is_high_value
          (nth 2 ex_fact (fact_row None "" None None None None)) = 0%Z
        <-> (a <= 5000)%Q)
    /\ ((a == 5000)%Q ->
        Fact.is_high_value
          (nth 2 ex_fact (fact_row None "" None None None None)) = 0%Z).
Proof.
  apply (is_high_value_correct parse_iso_date ex_transactions ex_customers
           ex_accounts ex_fact ex_customers).
  - reflexivity.
  - simpl. tauto.
Defined.

Lemma unmatched_customers_excluded_ex :
  (forall r, In r ex_fact -> matched ex_customers r = false ->
     Fact.age r = None /\ Fact.city r = None /\ Fact.credit_score r = None
     /\ Fact.employment_status r = None
     /\ forall k g, In (k, g) (groupby customer_key ex_fact) -> ~ In r g)
  /\ customer_metrics ex_fact
     = customer_metrics (filter (matched ex_customers) ex_fact)
  /\ top_10_threshold (customer_metrics ex_fact)
     = top_10_threshold
         (customer_metrics (filter (matched ex_customers) ex_fact))
  /\ high_value_customers ex_fact
     = high_value_customers (filter (matched ex_customers) ex_fact).
Proof.
  apply (unmatched_customers_excluded parse_iso_date ex_transactions
           ex_customers ex_accounts ex_fact ex_customers).
  reflexivity.
Defined.

Lemma rank_among_retained_ex :
  let r := nth 0 (high_value_customers eleven_fact)
             {| HighValue.metrics :=
                  {| Metrics.customer_id := ""; Metrics.age := 0;
                     Metrics.city := ""; Metrics.credit_score := 0;
                     Metrics.employment_status := "";
                     Metrics.transaction_count := 0;
                     Metrics.total_spent := 0;
                     Metrics.high_value_txn_count := 0 |};
                HighValue.rank := 0 |} in
  let spent := map (fun h => Metrics.total_spent (HighValue.metrics h))
                 (high_value_customers eleven_fact) in
  let v := Metrics.total_spent (HighValue.metrics r) in
  (HighValue.rank r
   == (inject_Z (Z.of_nat (count_gt spent v))
       + (inject_Z (Z.of_nat (count_eq spent v)) + 1) / 2)
      / inject_Z (Z.of_nat (length (high_value_customers eleven_fact))))%Q
  /\ (0 < HighValue.rank r <= 1)%Q
  /\ (forall r', In r' (high_value_customers eleven_fact) ->
        (v < Metrics.total_spent (HighValue.metrics r'))%Q ->
        (HighValue.rank r' < HighValue.rank r)%Q)
  /\ (forall r', In r' (high_value_customers eleven_fact) ->
        (Metrics.total_spent (HighValue.metrics r') == v)%Q ->
        HighValue.rank r' = HighValue.rank r).
Proof.
  intros r.
  apply (rank_among_retained eleven_fact r).
  vm_compute. left. reflexivity.
Defined.

(** * Further properties of the pipeline *)

(** ** Cleaning *)

Section CleanFacts.
Context {R K : Type} `{KeyLaws K}.
Variable subset : R -> K.
Variable valid : R -> bool.

(** What deduplication followed by the null filter keeps. *)
Lemma clean_spec (rows : list R) :
  NoDup (map subset (dropna valid (drop_duplicates subset rows)))
  /\ (forall r, In r (dropna valid (drop_duplicates subset rows)) <->
        find (fun x => key_eqb (subset x) (subset r)) rows = Some r
        /\ valid r = true)
  /\ subseq (dropna valid (drop_duplicates subset rows)) rows.
Proof.
  unfold dropna, drop_duplicates. split; [|split].
  - apply filter_keeps_distinct, drop_duplicates_from_NoDup.
  - intros r. rewrite filter_In. split.
    + intros [Hr Hv]. split; [|exact Hv].
      eapply drop_duplicates_from_first; eassumption.
    + intros [Hf Hv]. split; [|exact Hv].
      apply drop_duplicates_from_keeps_first; [assumption | intros []].
  - eapply subseq_trans; [apply subseq_filter|].
    apply drop_duplicates_from_subseq.
Qed.
End CleanFacts.

(** [X1] The cleaned customers (lines 59-61) have pairwise distinct,
    non-null [customer_id]s; they are exactly the first rows of their
    [customer_id] in the input, the row of the null id left out, and they
    stand in input order. *)
Theorem clean_customers_invariant (customers : list Customer.t) :
  NoDup (map Customer.customer_id (clean_customers customers))
  /\ (forall c, In c (clean_customers customers) ->
        exists id, Customer.customer_id c = Some id)
  /\ (forall c, In c (clean_customers customers) <->
        find (fun x => key_eqb (Customer.customer_id x)
                         (Customer.customer_id c)) customers = Some c
        /\ Customer.customer_id c <> None)
  /\ subseq (clean_customers customers) customers.
Proof.
  destruct (clean_spec Customer.customer_id customers_valid customers)
    as (Hnd & Hiff & Hsub).
  fold (clean_customers customers) in *.
  assert (Hvalid : forall c, customers_valid c = true <->
                     Customer.customer_id c <> None).
  { intros c. unfold customers_valid.
    destruct (Customer.customer_id c); simpl; split; congruence. }
  split; [exact Hnd|]. split; [|split; [|exact Hsub]].
  - intros c Hc. apply Hiff in Hc. destruct Hc as [_ Hv].
    unfold customers_valid in Hv.
    destruct (Customer.customer_id c) as [id|]; [eauto | discriminate].
  - intros c. rewrite Hiff, Hvalid. reflexivity.
Qed.

(** ** The fact table *)

Lemma enrich_rows parse (l : list Transaction.t) : forall enriched,
  enrich parse l = Ok enriched -> map Enriched.row enriched = l.
Proof.
  unfold enrich. induction l as [|t l IH]; simpl; intros enriched E.
  - now injection E as <-.
  - destruct (enrich_row parse t) as [e|x] eqn:Et; simpl in E; [|discriminate].
    destruct (mapM (enrich_row parse) l) as [es|x]; simpl in E;
      [|discriminate].
    injection E as <-. simpl. apply enrich_row_inv in Et.
    destruct Et as [-> _]. f_equal. now apply IH.
Qed.

Lemma transform_data_inv parse transactions customers accounts fact cc :
  transform_data parse transactions customers accounts = Ok (fact, cc) ->
  exists enriched,
    enrich parse (clean_transactions transactions) = Ok enriched
    /\ fact = join_fact enriched (clean_customers customers) accounts
    /\ cc = clean_customers customers.
Proof.
  unfold transform_data.
  destruct (enrich parse (clean_transactions transactions)) as [enriched|e];
    simpl; [|discriminate].
  intros E. injection E as <- <-. eauto.
Qed.


Section MergeCount.
Context {L R K : Type} `{KeyLaws K}.
Variable left_on : L -> option K.
Variable right_on : R -> option K.

(** A left row that the join pairs with nothing has no right row of its
    key. *)
Lemma merge_left_In_None (left : list L) (right : list R) x :
  In (x, None) (merge_left left_on right_on left right) ->
  forall y, In y right -> key_eqb (left_on x) (right_on y) = false.
Proof.
  unfold merge_left. rewrite in_flat_map. intros (x' & _ & Hin) y Hy.
  destruct (filter (fun y => key_eqb (left_on x') (right_on y)) right)
    as [|y' ms] eqn:E.
  - destruct Hin as [E' | []]. injection E' as ->.
    destruct (key_eqb (left_on x) (right_on y)) eqn:Ek; [|reflexivity].
    assert (Hf : In y (filter (fun y => key_eqb (left_on x) (right_on y))
                         right)) by (apply filter_In; now split).
    rewrite E in Hf. destruct Hf.
  - apply in_map_iff in Hin. destruct Hin as (? & E' & _). discriminate.
Qed.

End MergeCount.

Lemma join_fact_transactions (enriched : list Enriched.t)
    (customers_clean : list Customer.t) (accounts : list Account.t) :
  NoDup (map Customer.customer_id customers_clean) ->
  NoDup (map Account.account_id accounts) ->
  map fact_transaction_columns (join_fact enriched customers_clean accounts)
  = map (fun e => transaction_columns (Enriched.row e)) enriched.
Proof.
  intros Hc Ha. unfold join_fact. rewrite map_map.
  rewrite (map_ext _ (fun j : Enriched.t * option Customer.t
                                * option Account.t =>
                        transaction_columns (Enriched.row (fst (fst j)))))
    by (intros [[e c] a]; reflexivity).
  rewrite <- (map_map (fun j : Enriched.t * option Customer.t
                                * option Account.t => fst (fst j))
                (fun e => transaction_columns (Enriched.row e))).
  f_equal.
  rewrite <- (map_map fst fst).
  now rewrite !merge_left_unique.
Qed.

(** [X3] When every [account_id] occurs at most once in accounts, the fact
    table carries the transaction columns of the cleaned transactions, row
    for row and in order; [transaction_id] is then a key of the fact
    table. *)
Theorem fact_keeps_transactions parse transactions customers accounts fact cc
    (Hacc : NoDup (map Account.account_id accounts))
    (Hrun : transform_data parse transactions customers accounts
            = Ok (fact, cc)) :
  map fact_transaction_columns fact
    = map transaction_columns (clean_transactions transactions)
  /\ NoDup (map Fact.transaction_id fact).
Proof.
  destruct (transform_data_inv _ _ _ _ _ _ Hrun) as (enriched & Henr & -> & _).
  assert (Hcols : map fact_transaction_columns
                    (join_fact enriched (clean_customers customers) accounts)
                  = map transaction_columns
                      (clean_transactions transactions)).
  { rewrite join_fact_transactions
      by (assumption || apply clean_customers_NoDup).
    rewrite <- (map_map Enriched.row transaction_columns).
    now rewrite (enrich_rows _ _ _ Henr). }
  split; [exact Hcols|].
  assert (Hid : map Fact.transaction_id
                  (join_fact enriched (clean_customers customers) accounts)
                = map Transaction.transaction_id
                    (clean_transactions transactions)).
  { rewrite (map_ext Fact.transaction_id
               (fun r => fst (fst (fst (fst (fst
                                  (fact_transaction_columns r)))))))
      by reflexivity.
    rewrite <- (map_map fact_transaction_columns
                  (fun c => fst (fst (fst (fst (fst c)))))).
    rewrite Hcols, map_map. reflexivity. }
  rewrite Hid. apply (clean_spec Transaction.transaction_id).
Qed.


(** [X5] The customer columns of a fact row whose [customer_id] is known
    are those of the first row of the raw customers table that carries this
    [customer_id]: later customer rows of the same id never reach the fact
    table. *)
Theorem fact_customer_columns parse transactions customers accounts fact cc
    (Hrun : transform_data parse transactions customers accounts
            = Ok (fact, cc))
    (r : Fact.t) (Hr : In r fact) (Hm : matched cc r = true) :
  exists c,
    find (fun x => key_eqb (Customer.customer_id x) (Fact.customer_id r))
      customers = Some c
    /\ Fact.age r = Customer.age c
    /\ Fact.city r = Customer.city c
    /\ Fact.credit_score r = Customer.credit_score c
    /\ Fact.employment_status r = Customer.employment_status c.
Proof.
  destruct (transform_data_inv _ _ _ _ _ _ Hrun) as (enriched & Henr & -> & ->).
  unfold join_fact in Hr. apply in_map_iff in Hr.
  destruct Hr as ([[e c] a] & <- & Hj).
  apply merge_left_In in Hj.
  destruct c as [c|].
  - apply merge_left_In_Some in Hj. destruct Hj as [Hc Hk].
    apply key_eqb_eq in Hk.
    exists c. simpl. rewrite Hk.
    split; [|now repeat split].
    now apply (clean_spec Customer.customer_id customers_valid) in Hc.
  - exfalso. unfold matched in Hm. apply existsb_exists in Hm.
    destruct Hm as (c & Hc & Hk).
    pose proof (merge_left_In_None _ _ _ _ _ Hj c Hc) as Hno.
    simpl in Hk, Hno. congruence.
Qed.

(** ** Failure of transform_data *)






(** ** Order of the sorted tables *)

Section SortedFacts.
Context {R : Type}.
Variable leb : R -> R -> bool.
Hypothesis leb_total : forall a b, leb a b = true \/ leb b a = true.

Lemma insert_sorted_Sorted (x : R) (l : list R) :
  Sorted (fun a b => leb a b = true) l ->
  Sorted (fun a b => leb a b = true) (insert_sorted leb x l).
Proof.
  induction 1 as [|y l Hl IH Hhd]; simpl.
  - repeat constructor.
  - destruct (leb x y) eqn:E.
    + repeat (constructor; try assumption).
    + constructor; [exact IH|].
      assert (Hyx : leb y x = true)
        by (destruct (leb_total x y); congruence).
      destruct Hhd as [|z l' Hz]; simpl.
      * now constructor.
      * destruct (leb x z); now constructor.
Qed.

(** [sort_values] puts the rows in the order of its comparison. *)
Lemma sort_values_Sorted (l : list R) :
  Sorted (fun a b => leb a b = true) (sort_values leb l).
Proof.
  induction l as [|x l IH]; simpl; [constructor|].
  now apply insert_sorted_Sorted.
Qed.
End SortedFacts.

Lemma Sorted_weaken {A} (P P' : A -> A -> Prop) (l : list A) :
  (forall a b, P a b -> P' a b) -> Sorted P l -> Sorted P' l.
Proof.
  intros Himp. induction 1 as [|x l Hl IH Hhd]; constructor; [exact IH|].
  destruct Hhd; constructor; auto.
Qed.

Lemma StronglySorted_map_inv {A B} (f : A -> B) (P : B -> B -> Prop)
    (l : list A) :
  StronglySorted P (map f l) ->
  StronglySorted (fun a b => P (f a) (f b)) l.
Proof.
  induction l as [|x l IH]; simpl; intros Hs; [constructor|].
  inversion Hs as [|? ? Hl Hx]; subst.
  constructor; [now apply IH|].
  rewrite Forall_forall in *. intros y Hy. apply Hx. now apply in_map.
Qed.

Lemma StronglySorted_map {A B} (f : A -> B) (P : B -> B -> Prop)
    (l : list A) :
  StronglySorted (fun a b => P (f a) (f b)) l ->
  StronglySorted P (map f l).
Proof.
  induction 1 as [|x l Hl IH Hx]; simpl; constructor; [exact IH|].
  rewrite Forall_forall in *. intros y Hy.
  apply in_map_iff in Hy. destruct Hy as (x' & <- & Hx'). now apply Hx.
Qed.

Lemma spent_desc_total (a b : Metrics.t) :
  spent_desc a b = true \/ spent_desc b a = true.
Proof.
  unfold spent_desc. rewrite !Qle_bool_iff.
  destruct (Qlt_le_dec (Metrics.total_spent a) (Metrics.total_spent b));
    [right; now apply Qlt_le_weak | now left].
Qed.

Lemma retained_sorted (metrics : list Metrics.t) :
  StronglySorted
    (fun a b => (Metrics.total_spent b <= Metrics.total_spent a)%Q)
    (retained metrics).
Proof.
  apply Sorted_StronglySorted.
  - intros a b c Hab Hbc. eapply Qle_trans; eassumption.
  - unfold retained.
    eapply Sorted_weaken; [|apply (sort_values_Sorted _ spent_desc_total)].
    intros a b Hab. now apply Qle_bool_iff in Hab.
Qed.

Lemma retained_In (metrics : list Metrics.t) (m : Metrics.t) :
  In m (retained metrics) <->
  In m metrics
  /\ ge_threshold (Metrics.total_spent m) (top_10_threshold metrics) = true.
Proof.
  unfold retained. rewrite sort_values_In, filter_In. reflexivity.
Qed.

Lemma add_rank_metrics (hv : list Metrics.t) :
  map HighValue.metrics (add_rank hv) = hv.
Proof.
  unfold add_rank. rewrite map_map. simpl. apply map_id.
Qed.

(** A value that is not greater has a rank that is not smaller. *)
Lemma rank_pct_desc_le (xs : list Q) (v v' : Q) :
  In v xs -> In v' xs -> (v' <= v)%Q ->
  (rank_pct_desc xs v <= rank_pct_desc xs v')%Q.
Proof.
  intros Hv Hv' Hle. apply Qle_lteq in Hle. destruct Hle as [Hlt | Heq].
  - apply Qlt_le_weak. now apply rank_pct_desc_antitone.
  - rewrite (rank_pct_desc_Qeq xs v' v Heq). apply Qle_refl.
Qed.

Lemma StronglySorted_map_rank (hv : list Metrics.t) (xs : list Q) :
  (forall m, In m hv -> In (Metrics.total_spent m) xs) ->
  StronglySorted
    (fun a b => (Metrics.total_spent b <= Metrics.total_spent a)%Q) hv ->
  StronglySorted
    (fun a b => (rank_pct_desc xs (Metrics.total_spent a)
                 <= rank_pct_desc xs (Metrics.total_spent b))%Q) hv.
Proof.
  intros Hin Hs. induction Hs as [|m hv Hs IH Hm]; [constructor|].
  constructor.
  - apply IH. intros m' Hm'. apply Hin. now right.
  - rewrite Forall_forall in *. intros m' Hm'.
    apply rank_pct_desc_le;
      [apply Hin; now left | apply Hin; now right | now apply Hm].
Qed.

(** [X7] The High-Value Customers are exactly the customer groups whose
    [total_spent] is at or above the 90th-percentile threshold; they come
    with [total_spent] non-increasing and [rank] non-decreasing down the
    table. *)
Theorem high_value_customers_order (fact : list Fact.t) :
  StronglySorted
    (fun a b => (Metrics.total_spent (HighValue.metrics b)
                 <= Metrics.total_spent (HighValue.metrics a))%Q)
    (high_value_customers fact)
  /\ StronglySorted
       (fun a b => (HighValue.rank a <= HighValue.rank b)%Q)
       (high_value_customers fact)
  /\ (forall m, In m (map HighValue.metrics (high_value_customers fact)) <->
        In m (customer_metrics fact)
        /\ exists t, top_10_threshold (customer_metrics fact) = Some t
                     /\ (t <= Metrics.total_spent m)%Q)
  /\ length (high_value_customers fact) <= length (customer_metrics fact).
Proof.
  unfold high_value_customers.
  set (cm := customer_metrics fact).
  pose proof (retained_sorted cm) as Hs.
  split; [|split; [|split]].
  - apply (StronglySorted_map_inv HighValue.metrics
             (fun a b => (Metrics.total_spent b <= Metrics.total_spent a)%Q)).
    now rewrite add_rank_metrics.
  - unfold add_rank.
    apply (StronglySorted_map _
             (fun a b => (HighValue.rank a <= HighValue.rank b)%Q)).
    simpl. apply StronglySorted_map_rank; [|exact Hs].
    intros m Hm. now apply in_map.
  - intros m. rewrite add_rank_metrics, retained_In.
    unfold ge_threshold. destruct (top_10_threshold cm) as [t|].
    + rewrite Qle_bool_iff. split.
      * intros [Hm Ht]. eauto.
      * intros [Hm (t' & E & Ht)]. injection E as <-. now split.
    + split; [intros [_ E]; discriminate | intros [_ (t & E & _)]; discriminate].
  - unfold add_rank, retained. rewrite length_map.
    rewrite (Permutation_length (sort_values_perm _ _)).
    apply filter_length_le.
Qed.

(** ** The threshold *)







(** ** One summary row per key *)

Section GroupKeysFacts.
Context {R K : Type} `{KeyLaws K}.
Variable by_ : R -> option K.

Lemma groupby_keys (rows : list R) :
  map fst (groupby by_ rows) = group_keys by_ rows.
Proof.
  unfold groupby. rewrite map_map. simpl. apply map_id.
Qed.

Lemma group_keys_NoDup (rows : list R) : NoDup (group_keys by_ rows).
Proof.
  eapply Permutation_NoDup;
    [symmetry; apply group_keys_perm | apply distinct_keys_NoDup].
Qed.

Lemma group_keys_In (rows : list R) (k : K) :
  In k (group_keys by_ rows) <-> exists r, In r rows /\ by_ r = Some k.
Proof.
  rewrite <- column_In, <- distinct_keys_In.
  split; apply Permutation_in;
    [|symmetry]; apply group_keys_perm.
Qed.

(** A group is never empty. *)
Lemma groupby_nonempty (rows : list R) (k : K) (g : list R) :
  In (k, g) (groupby by_ rows) -> g <> [].
Proof.
  intros Hg.
  assert (Hk : In k (group_keys by_ rows)).
  { rewrite <- groupby_keys. apply in_map_iff. now exists (k, g). }
  apply group_keys_In in Hk. destruct Hk as (r & Hr & Er).
  unfold groupby in Hg. apply in_map_iff in Hg.
  destruct Hg as (k' & E & _). injection E as -> <-.
  assert (Hin : In r (filter (has_key by_ k) rows)).
  { apply filter_In. split; [exact Hr | now apply has_key_Some]. }
  intros E. rewrite E in Hin. destruct Hin.
Qed.
End GroupKeysFacts.

Lemma monthly_leb_total (a b : Monthly.t) :
  monthly_leb a b = true \/ monthly_leb b a = true.
Proof.
  unfold monthly_leb. cbn [key_leb Key_prod]. unfold prod_leb.
  cbn [fst snd key_leb key_eqb Key_string].
  destruct (String.eqb_spec (Monthly.transaction_month a)
              (Monthly.transaction_month b)) as [E | Hne].
  - rewrite E, String.eqb_refl. apply String.leb_total.
  - assert (E : String.eqb (Monthly.transaction_month b)
                  (Monthly.transaction_month a) = false).
    { apply String.eqb_neq. congruence. }
    rewrite E. apply String.leb_total.
Qed.

(** [X9] The Monthly Summary has one row for each pair of a
    [transaction_month] and an [account_type] that occur together, both
    non-null, on a fact row, and no other row; its rows stand in ascending
    order of ([transaction_month], [account_type]). *)
Theorem monthly_summary_keys (fact : list Fact.t) :
  NoDup (map monthly_row_key (monthly_summary fact))
  /\ (forall m a,
        In (m, a) (map monthly_row_key (monthly_summary fact)) <->
        exists r, In r fact /\ Fact.transaction_month r = Some m
                  /\ Fact.account_type r = Some a)
  /\ Sorted (fun x y => monthly_leb x y = true) (monthly_summary fact).
Proof.
  assert (Hkeys : Permutation (map monthly_row_key (monthly_summary fact))
                    (group_keys monthly_key fact)).
  { unfold monthly_summary.
    rewrite (Permutation_map monthly_row_key (sort_values_perm _ _)).
    rewrite map_map, <- groupby_keys.
    erewrite map_ext; [reflexivity|]. now intros [[m a] rows]. }
  split; [|split].
  - eapply Permutation_NoDup; [symmetry; exact Hkeys|].
    apply group_keys_NoDup.
  - intros m a. split.
    + intros Hin. apply (Permutation_in _ Hkeys) in Hin.
      apply group_keys_In in Hin. destruct Hin as (r & Hr & E).
      exists r. split; [exact Hr|]. unfold monthly_key in E.
      destruct (Fact.transaction_month r), (Fact.account_type r);
        try discriminate.
      injection E as -> ->. now split.
    + intros (r & Hr & Em & Ea).
      apply (Permutation_in _ (Permutation_sym Hkeys)).
      apply group_keys_In. exists r. split; [exact Hr|].
      unfold monthly_key. now rewrite Em, Ea.
  - apply sort_values_Sorted, monthly_leb_total.
Qed.

Lemma amount_desc_total (a b : Category.t) :
  amount_desc a b = true \/ amount_desc b a = true.
Proof.
  unfold amount_desc. rewrite !Qle_bool_iff.
  destruct (Qlt_le_dec (Category.total_amount a) (Category.total_amount b));
    [right; now apply Qlt_le_weak | now left].
Qed.

(** [X10] The Category Analysis has one row for each non-null
    [merchant_category] of the fact table and no other row; down the table
    [total_amount] never increases. *)
Theorem category_analysis_keys (fact : list Fact.t) :
  NoDup (map Category.merchant_category (category_analysis fact))
  /\ (forall c,
        In c (map Category.merchant_category (category_analysis fact)) <->
        exists r, In r fact /\ Fact.merchant_category r = Some c)
  /\ StronglySorted
       (fun x y => (Category.total_amount y <= Category.total_amount x)%Q)
       (category_analysis fact).
Proof.
  assert (Hkeys : Permutation
                    (map Category.merchant_category (category_analysis fact))
                    (group_keys Fact.merchant_category fact)).
  { unfold category_analysis.
    rewrite (Permutation_map Category.merchant_category
               (sort_values_perm _ _)).
    rewrite map_map, <- groupby_keys.
    erewrite map_ext; [reflexivity|]. now intros [c rows]. }
  split; [|split].
  - eapply Permutation_NoDup; [symmetry; exact Hkeys|].
    apply group_keys_NoDup.
  - intros c. rewrite <- group_keys_In.
    split; apply Permutation_in; [|symmetry]; exact Hkeys.
  - apply Sorted_StronglySorted.
    + intros x y z Hxy Hyz. eapply Qle_trans; eassumption.
    + unfold category_analysis.
      eapply Sorted_weaken; [|apply (sort_values_Sorted _ amount_desc_total)].
      intros x y Hxy. now apply Qle_bool_iff in Hxy.
Qed.

(** [X11] The customer metrics have one row for each combination of
    [customer_id], [age], [city], [credit_score] and [employment_status]
    that occurs, all non-null, on a fact row, and no other row; their
    [transaction_count]s add up to the number of fact rows that have these
    five columns and a [transaction_id]. *)
Theorem customer_metrics_keys (fact : list Fact.t) :
  NoDup (map metrics_key (customer_metrics fact))
  /\ (forall k,
        In k (map metrics_key (customer_metrics fact)) <->
        exists r, In r fact /\ customer_key r = Some k)
  /\ list_sum (map Metrics.transaction_count (customer_metrics fact))
     = length (filter customer_counted fact).
Proof.
  assert (Hkeys : map metrics_key (customer_metrics fact)
                  = group_keys customer_key fact).
  { unfold customer_metrics. rewrite map_map, <- groupby_keys.
    apply map_ext. now intros [[[[[c a] ci] cs] es] rows]. }
  rewrite Hkeys. split; [apply group_keys_NoDup|].
  split; [intros k; apply group_keys_In|].
  unfold customer_metrics. rewrite map_map.
  rewrite (map_ext _ (fun g => agg_count Fact.transaction_id (snd g)))
    by (intros [[[[[c a] ci] cs] es] rows]; reflexivity).
  rewrite groupby_count, column_length, filter_andb. reflexivity.
Qed.

(** ** Conservation of amounts *)




Section GroupSumFacts.
Context {R K : Type} `{KeyLaws K}.
Variable by_ : R -> option K.
Variable c : R -> option Q.




End GroupSumFacts.


(** ** Flags and averages on a fact table of transform_data *)

Lemma fact_row_amount parse transactions customers accounts fact cc r :
  transform_data parse transactions customers accounts = Ok (fact, cc) ->
  In r fact ->
  exists a, Fact.amount r = Some a
            /\ Fact.is_high_value r = high_value_flag (Some a).
Proof.
  intros Hrun Hr.
  destruct (fact_row_origin _ _ _ _ _ _ _ Hrun Hr)
    as (t & c & a & Ht & Eamt & _ & Eflag & _).
  unfold clean_transactions, dropna in Ht. apply filter_In in Ht.
  destruct Ht as [_ Hv]. unfold transactions_valid in Hv.
  apply andb_true_iff in Hv. destruct Hv as [Hv _].
  destruct (Transaction.amount t) as [x|]; [|discriminate].
  exists x. now rewrite Eamt, Eflag.
Qed.

Lemma wrap_int64_small (z : Z) :
  (- 2 ^ 63 <= z < 2 ^ 63)%Z -> wrap_int64 z = z.
Proof.
  intros Hz. unfold wrap_int64. rewrite Z.mod_small; lia.
Qed.

(** The int64 sum of 0/1 flags counts the flags that are 1, as long as the
    rows are fewer than 2^63. *)
Lemma agg_sum_int_flags {R} (col : R -> Z) (rows : list R) :
  (forall r, In r rows -> col r = 0%Z \/ col r = 1%Z) ->
  (Z.of_nat (length rows) < 2 ^ 63)%Z ->
  agg_sum_int col rows
  = Z.of_nat (length (filter (fun r => Z.eqb (col r) 1) rows)).
Proof.
  unfold agg_sum_int.
  assert (Hgen : forall acc,
            (forall r, In r rows -> col r = 0%Z \/ col r = 1%Z) ->
            (0 <= acc)%Z ->
            (acc + Z.of_nat (length rows) < 2 ^ 63)%Z ->
            fold_left (fun acc r => wrap_int64 (acc + col r)) rows acc
            = (acc + Z.of_nat (length (filter (fun r => Z.eqb (col r) 1)
                                         rows)))%Z).
  { induction rows as [|x rows IH]; intros acc Hflags Hacc Hsize.
    - simpl. lia.
    - cbn [fold_left filter length] in *.
      assert (Hx : col x = 0%Z \/ col x = 1%Z) by (apply Hflags; now left).
      rewrite wrap_int64_small by lia.
      rewrite IH; [| intros r Hr; apply Hflags; now right | lia | lia].
      destruct Hx as [-> | ->].
      + change (Z.eqb 0 1) with false. cbv iota. lia.
      + change (Z.eqb 1 1) with true. cbv iota. cbn [length]. lia. }
  intros Hflags Hsize. rewrite Hgen; [lia | assumption | lia | lia].
Qed.

(** [X13] On a fact table built by [transform_data] with fewer than 2^63
    rows, the [high_value_txn_count] of a customer group is the number of
    the group's fact rows whose [amount] exceeds 5000; the int64 sum does
    not wrap. *)
Theorem high_value_txn_count_correct parse transactions customers accounts
    fact cc
    (Hrun : transform_data parse transactions customers accounts
            = Ok (fact, cc))
    (Hsize : (Z.of_nat (length fact) < 2 ^ 63)%Z)
    (m : Metrics.t) (Hm : In m (customer_metrics fact)) :
  Metrics.high_value_txn_count m
  = Z.of_nat
      (length (filter (fun r => has_key customer_key (metrics_key m) r
                                && above_5000 r) fact)).
Proof.
  unfold customer_metrics, groupby in Hm.
  apply in_map_iff in Hm. destruct Hm as (g & <- & Hg).
  apply in_map_iff in Hg. destruct Hg as (k & <- & _).
  destruct k as [[[[c a] ci] cs] es]. cbn [metrics_row metrics_key
    Metrics.high_value_txn_count Metrics.customer_id Metrics.age Metrics.city
    Metrics.credit_score Metrics.employment_status].
  set (k := (c, a, ci, cs, es)).
  assert (Hsub : forall r, In r (filter (has_key customer_key k) fact) ->
                   In r fact).
  { intros r Hr. apply filter_In in Hr. tauto. }
  assert (Hflag : forall r, In r fact ->
            Z.eqb (Fact.is_high_value r) 1 = above_5000 r
            /\ (Fact.is_high_value r = 0%Z \/ Fact.is_high_value r = 1%Z)).
  { intros r Hr.
    destruct (fact_row_amount _ _ _ _ _ _ _ Hrun Hr) as (x & Ex & Ef).
    unfold above_5000. rewrite Ef, Ex. simpl.
    destruct (Qle_bool x 5000); simpl; auto. }
  rewrite agg_sum_int_flags.
  - rewrite filter_andb. do 2 f_equal.
    apply filter_ext_in. intros r Hr.
    destruct (Hflag r Hr) as [-> _]. reflexivity.
  - intros r Hr. now apply Hflag, Hsub.
  - pose proof (filter_length_le (has_key customer_key k) fact). lia.
Qed.

Lemma column_all {R A} (c : R -> option A) (l : list R) :
  (forall r, In r l -> exists a, c r = Some a) ->
  length (column c l) = length l.
Proof.
  induction l as [|x l IH]; simpl; intros Hall; [reflexivity|].
  destruct (Hall x (or_introl eq_refl)) as (a & ->). simpl.
  f_equal. apply IH. intros r Hr. apply Hall. now right.
Qed.



(** ** Tables that are already clean *)

Lemma subseq_length {A} (l1 l2 : list A) :
  subseq l1 l2 -> length l1 <= length l2.
Proof. induction 1; simpl; lia. Qed.

Lemma filter_id_all {R} (p : R -> bool) (l : list R) :
  filter p l = l -> forall r, In r l -> p r = true.
Proof.
  induction l as [|x l IH]; simpl; intros E r Hr; [destruct Hr|].
  destruct (p x) eqn:Ep.
  - injection E as E. destruct Hr as [<- | Hr]; auto.
  - pose proof (filter_length_le p l) as Hle.
    rewrite E in Hle. simpl in Hle. lia.
Qed.

Section CleanFixpoint.
Context {R K : Type} `{KeyLaws K}.
Variable subset : R -> K.
Variable valid : R -> bool.

(** Cleaning changes nothing exactly on a table with distinct keys whose
    rows are all valid. *)
Lemma clean_fixpoint (rows : list R) :
  dropna valid (drop_duplicates subset rows) = rows <->
  NoDup (map subset rows) /\ forall r, In r rows -> valid r = true.
Proof.
  split.
  - intros E.
    destruct (clean_spec subset valid rows) as (Hnd & Hiff & _).
    rewrite E in Hnd, Hiff. split; [exact Hnd|].
    intros r Hr. now apply Hiff in Hr.
  - intros [Hnd Hvalid]. unfold dropna, drop_duplicates.
    rewrite drop_duplicates_from_id; [now apply filter_all | exact Hnd |].
    intros r _ [].
Qed.
End CleanFixpoint.

(** [X15] The cleaning of lines 54-61 leaves a transactions table as it is
    exactly when its [transaction_id]s are pairwise distinct and every row
    has an [amount] and a [customer_id]; it leaves a customers table as it
    is exactly when its [customer_id]s are pairwise distinct and none is
    null. *)
Theorem cleaning_fixpoints (transactions : list Transaction.t)
    (customers : list Customer.t) :
  (clean_transactions transactions = transactions <->
   NoDup (map Transaction.transaction_id transactions)
   /\ forall t, In t transactions ->
        Transaction.amount t <> None /\ Transaction.customer_id t <> None)
  /\ (clean_customers customers = customers <->
      NoDup (map Customer.customer_id customers)
      /\ forall c, In c customers -> Customer.customer_id c <> None).
Proof.
  split.
  - unfold clean_transactions. rewrite clean_fixpoint.
    split; intros [Hnd Hv]; (split; [exact Hnd|]); intros t Ht;
      specialize (Hv t Ht); unfold transactions_valid in *;
      destruct (Transaction.amount t), (Transaction.customer_id t);
      simpl in *; try reflexivity; try discriminate;
      try (split; discriminate); destruct Hv; congruence.
  - unfold clean_customers. rewrite clean_fixpoint.
    split; intros [Hnd Hv]; (split; [exact Hnd|]); intros c Hc;
      specialize (Hv c Hc); unfold customers_valid in *;
      destruct (Customer.customer_id c); simpl in *;
      try reflexivity; try discriminate; congruence.
Qed.

(** ** Active customers *)

Lemma drop_duplicates_length {K} `{KeyLaws K} (l : list K) :
  length (drop_duplicates (fun k => k) l) <= length l
  /\ (l <> [] -> 1 <= length (drop_duplicates (fun k => k) l)).
Proof.
  split.
  - apply subseq_length, drop_duplicates_from_subseq.
  - destruct l as [|x l]; [congruence|]. intros _.
    unfold drop_duplicates. simpl. lia.
Qed.

Lemma fact_row_customer parse transactions customers accounts fact cc r :
  transform_data parse transactions customers accounts = Ok (fact, cc) ->
  In r fact -> exists c, Fact.customer_id r = Some c.
Proof.
  intros Hrun Hr.
  destruct (fact_row_origin _ _ _ _ _ _ _ Hrun Hr)
    as (t & c & a & Ht & _ & Ecid & _).
  unfold clean_transactions, dropna in Ht. apply filter_In in Ht.
  destruct Ht as [_ Hv]. unfold transactions_valid in Hv.
  apply andb_true_iff in Hv. destruct Hv as [_ Hv].
  destruct (Transaction.customer_id t) as [x|]; [|discriminate].
  exists x. now rewrite Ecid.
Qed.

(** [X16] In the Monthly Summary of a fact table built by
    [transform_data] every row has at least one active customer, and no
    more active customers than the fact table has rows of its month and
    account type. *)
Theorem active_customers_bounds parse transactions customers accounts
    fact cc
    (Hrun : transform_data parse transactions customers accounts
            = Ok (fact, cc))
    (row : Monthly.t) (Hrow : In row (monthly_summary fact)) :
  1 <= Monthly.active_customers row
  /\ Monthly.active_customers row
     <= length (filter (has_key monthly_key (monthly_row_key row)) fact).
Proof.
  unfold monthly_summary in Hrow.
  apply sort_values_In, in_map_iff in Hrow.
  destruct Hrow as ([[m a] g] & <- & Hg).
  pose proof (groupby_nonempty monthly_key fact (m, a) g Hg) as Hne.
  assert (Eg : g = filter (has_key monthly_key (m, a)) fact).
  { unfold groupby in Hg. apply in_map_iff in Hg.
    destruct Hg as (k' & E & _). now injection E as -> <-. }
  assert (Hlen : length (column Fact.customer_id g) = length g).
  { apply column_all. intros r Hr. rewrite Eg in Hr.
    apply filter_In in Hr.
    exact (fact_row_customer _ _ _ _ _ _ _ Hrun (proj1 Hr)). }
  destruct (drop_duplicates_length (column Fact.customer_id g))
    as [Hle Hpos].
  change (Monthly.active_customers (monthly_row (m, a, g)))
    with (length (drop_duplicates (fun k => k)
                    (column Fact.customer_id g))).
  change (monthly_row_key (monthly_row (m, a, g))) with (m, a).
  rewrite <- Eg. split; [|lia].
  apply Hpos. intros E. rewrite E in Hlen. simpl in Hlen.
  destruct g; [congruence | discriminate].
Qed.

(** ** The further properties at the sample tables *)

Lemma ex_accounts_NoDup : NoDup (map Account.account_id ex_accounts).
Proof. repeat constructor. simpl. tauto. Qed.


Lemma fact_keeps_transactions_ex :
  map fact_transaction_columns ex_fact
    = map transaction_columns (clean_transactions ex_transactions)
  /\ NoDup (map Fact.transaction_id ex_fact).
Proof.
  apply (fact_keeps_transactions parse_iso_date ex_transactions ex_customers
           ex_accounts ex_fact ex_customers).
  - exact ex_accounts_NoDup.
  - reflexivity.
Defined.


Lemma fact_customer_columns_ex :
  exists c,
    find (fun x => key_eqb (Customer.customer_id x)
                     (Fact.customer_id ex_fact_first))
      ex_customers = Some c
    /\ Fact.age ex_fact_first = Customer.age c
    /\ Fact.city ex_fact_first = Customer.city c
    /\ Fact.credit_score ex_fact_first = Customer.credit_score c
    /\ Fact.employment_status ex_fact_first = Customer.employment_status c.
Proof.
  apply (fact_customer_columns parse_iso_date ex_transactions ex_customers
           ex_accounts ex_fact ex_customers).
  - reflexivity.
  - left. reflexivity.
  - reflexivity.
Defined.


Lemma high_value_txn_count_correct_ex :
  Metrics.high_value_txn_count ex_metrics_first
  = Z.of_nat
      (length (filter (fun r => has_key customer_key
                                  (metrics_key ex_metrics_first) r
                                && above_5000 r) ex_fact)).
Proof.
  apply (high_value_txn_count_correct parse_iso_date ex_transactions
           ex_customers ex_accounts ex_fact ex_customers).
  - reflexivity.
  - reflexivity.
  - left. reflexivity.
Defined.


Lemma active_customers_bounds_ex :
  1 <= Monthly.active_customers ex_monthly_first
  /\ Monthly.active_customers ex_monthly_first
     <= length (filter (has_key monthly_key
                          (monthly_row_key ex_monthly_first)) ex_fact).
Proof.
  apply (active_customers_bounds parse_iso_date ex_transactions ex_customers
           ex_accounts ex_fact ex_customers).
  - reflexivity.
  - left. reflexivity.
Defined.
